(** * RADIUS splash-page authentication server: a shallow embedding of
    [server.js] and the properties of its authentication endpoint.

    The development follows the layout of the source file:
    - [Js]: the fragment of JavaScript values the handler looks at
      (truthiness, [===], [||], [parseInt]);
    - the configuration constants read from [process.env];
    - [authenticateWithRadius]: the per-attempt socket, timer and promise,
      with its three callbacks and the two helpers [clearTimeoutSafely] and
      [closeSafely];
    - the [POST /auth/radius] handler.

    Console and file logging have no influence on control flow and are left
    out of the state. *)

From Stdlib Require Import ZArith QArith Qround Lia Ascii String.
From stdpp Require Import base strings gmap list.

Local Open Scope string_scope.
Local Open Scope list_scope.
Local Open Scope Z_scope.

(** ** JavaScript values *)

Module Js.

(** A string is the sequence of its UTF-16 code units, each below 256;
    strings with a code unit above 255 are outside the model. *)

(** The values a parsed request body or a decoded attribute can hold.
    Numbers are the rationals a JSON literal denotes; arrays and objects are
    only ever tested for truthiness, so they carry no payload. *)
Inductive JsValue : Type :=
  | JUndefined
  | JNull
  | JBool (b : bool)
  | JNum (q : Q)
  | JStr (s : string)
  | JObject.

(** ToBoolean: [undefined], [null], [false], [0] and [''] are falsy. *)
Definition truthy (v : JsValue) : bool :=
  match v with
  | JUndefined | JNull => false
  | JBool b => b
  | JNum q => negb (Qnum q =? 0)%Z
  | JStr s => negb (String.eqb s "")
  | JObject => true
  end.

(** [v === s] for a string [s]: no coercion, only a string equal to [s]. *)
Definition strict_eq_str (v : JsValue) (s : string) : bool :=
  match v with
  | JStr t => String.eqb t s
  | _ => false
  end.

(** [process.env]: every variable that is set holds a string. *)
Abbreviation Env := (gmap string string).

(** [process.env.NAME || dflt]: the default is taken when the variable is
    unset or empty. *)
Definition env_or (env : Env) (name dflt : string) : string :=
  match env !! name with
  | Some s => if String.eqb s "" then dflt else s
  | None => dflt
  end.

(** *** [parseInt] with one argument *)

(** White space and line terminators below 256: tab, line feed, vertical
    tab, form feed, carriage return, space and the no-break space U+00A0. *)
Definition is_js_space (c : ascii) : bool :=
  let n := nat_of_ascii c in
  ((9 <=? n)%nat && (n <=? 13)%nat) || (n =? 32)%nat || (n =? 160)%nat.

Fixpoint skip_space (s : string) : string :=
  match s with
  | String c r => if is_js_space c then skip_space r else s
  | EmptyString => s
  end.

Definition digit_value (c : ascii) : option Z :=
  let n := Z.of_nat (nat_of_ascii c) in
  if (48 <=? n) && (n <=? 57) then Some (n - 48)
  else if (97 <=? n) && (n <=? 122) then Some (n - 87)
  else if (65 <=? n) && (n <=? 90) then Some (n - 55)
  else None.

(** The longest prefix of digits of the radix, most significant first;
    [None] when the prefix is empty. *)
Fixpoint digits_prefix (radix : Z) (s : string) (acc : option Z) : option Z :=
  match s with
  | String c r =>
      match digit_value c with
      | Some d =>
          if d <? radix
          then digits_prefix radix r (Some (radix * default 0 acc + d))
          else acc
      | None => acc
      end
  | EmptyString => acc
  end.

Definition strip_hex_prefix (s : string) : option string :=
  match s with
  | String "0" (String "x" r) | String "0" (String "X" r) => Some r
  | _ => None
  end.

(** The numbers [parseInt] returns: [NaN], an infinity, or an integer that
    is a double. *)
Inductive JsInteger : Type :=
  | NaN
  | Infinity (negative : bool)
  | Integer (z : Z).
(* [-0] and [0] are both [Integer 0]. *)

(** The double nearest to a non-negative integer, ties to the even
    significand of 53 bits; [None] from 2^1024 on, where the number is
    [Infinity]. *)
Definition to_double (m : Z) : option Z :=
  if m <? 2 ^ 53 then Some m
  else
    let e := Z.log2 m - 52 in
    let q := Z.shiftr m e in
    let r := m - Z.shiftl q e in
    let half := 2 ^ (e - 1) in
    let q' := if (half <? r) || ((r =? half) && Z.odd q) then q + 1 else q in
    let d := Z.shiftl q' e in
    if d <? 2 ^ 1024 then Some d else None.

(** [parseInt(s)]: leading white space, an optional sign, an optional [0x],
    then digits; the integer they denote, as a number. *)
Definition parseInt (s : string) : JsInteger :=
  let s := skip_space s in
  let '(negative, s) :=
    match s with
    | String "-" r => (true, r)
    | String "+" r => (false, r)
    | _ => (false, s)
    end in
  let magnitude :=
    match strip_hex_prefix s with
    | Some r => digits_prefix 16 r None
    | None => digits_prefix 10 s None
    end in
  match magnitude with
  | None => NaN
  | Some m =>
      match to_double m with
      | Some d => Integer (if negative then - d else d)
      | None => Infinity negative
      end
  end.

End Js.
Export Js.

(** ** The packet codec

    [radius.encode] and [radius.decode] belong to the npm package [radius];
    the repository only calls them.  Everything the server does with them is
    stated further down for an arbitrary pair of functions.  The two modules
    below give one concrete codec, used where a statement needs actual
    datagrams. *)

(** Outcome of a call that may throw: the value, or the [message] of the
    [Error]. *)
Inductive Outcome (A : Type) : Type :=
  | Ok (a : A)
  | Throw (message : string).
Arguments Ok {A} a.
Arguments Throw {A} message.

Abbreviation bytes := (list Z).

Module Md5.

(** Modelled from the spec: the digest behind "MD5-based XOR keying" and the
    response authenticator of section 4.1 is not in the sources; this is the
    algorithm of RFC 1321 on bytes, with 32-bit words held in [Z]. *)
Definition w32 (x : Z) : Z := x mod 2 ^ 32.

Definition rotl (x s : Z) : Z :=
  w32 (Z.lor (Z.shiftl x s) (Z.shiftr x (32 - s))).

Definition not32 (x : Z) : Z := Z.lxor x 0xffffffff.

Definition shifts : list Z :=
  [7; 12; 17; 22; 7; 12; 17; 22; 7; 12; 17; 22; 7; 12; 17; 22;
   5; 9; 14; 20; 5; 9; 14; 20; 5; 9; 14; 20; 5; 9; 14; 20;
   4; 11; 16; 23; 4; 11; 16; 23; 4; 11; 16; 23; 4; 11; 16; 23;
   6; 10; 15; 21; 6; 10; 15; 21; 6; 10; 15; 21; 6; 10; 15; 21].

Definition sines : list Z :=
  [ 0xd76aa478; 0xe8c7b756; 0x242070db; 0xc1bdceee;
    0xf57c0faf; 0x4787c62a; 0xa8304613; 0xfd469501;
    0x698098d8; 0x8b44f7af; 0xffff5bb1; 0x895cd7be;
    0x6b901122; 0xfd987193; 0xa679438e; 0x49b40821;
    0xf61e2562; 0xc040b340; 0x265e5a51; 0xe9b6c7aa;
    0xd62f105d; 0x02441453; 0xd8a1e681; 0xe7d3fbc8;
    0x21e1cde6; 0xc33707d6; 0xf4d50d87; 0x455a14ed;
    0xa9e3e905; 0xfcefa3f8; 0x676f02d9; 0x8d2a4c8a;
    0xfffa3942; 0x8771f681; 0x6d9d6122; 0xfde5380c;
    0xa4beea44; 0x4bdecfa9; 0xf6bb4b60; 0xbebfbc70;
    0x289b7ec6; 0xeaa127fa; 0xd4ef3085; 0x04881d05;
    0xd9d4d039; 0xe6db99e5; 0x1fa27cf8; 0xc4ac5665;
    0xf4292244; 0x432aff97; 0xab9423a7; 0xfc93a039;
    0x655b59c3; 0x8f0ccc92; 0xffeff47d; 0x85845dd1;
    0x6fa87e4f; 0xfe2ce6e0; 0xa3014314; 0x4e0811a1;
    0xf7537e82; 0xbd3af235; 0x2ad7d2bb; 0xeb86d391 ].

Record Regs : Type := { ra : Z; rb : Z; rc : Z; rd : Z }.

Definition initial : Regs :=
  {| ra := 0x67452301; rb := 0xefcdab89; rc := 0x98badcfe; rd := 0x10325476 |}.

(** Operation [i] (0..63) on the sixteen words [m] of a block. *)
Definition operation (m : list Z) (r : Regs) (i : nat) : Regs :=
  let '(Build_Regs a b c d) := r in
  let z := Z.of_nat i in
  let '(f, g) :=
    if z <? 16 then (Z.lor (Z.land b c) (Z.land (not32 b) d), z)
    else if z <? 32 then (Z.lor (Z.land d b) (Z.land (not32 d) c), (5 * z + 1) mod 16)
    else if z <? 48 then (Z.lxor b (Z.lxor c d), (3 * z + 5) mod 16)
    else (Z.lxor c (Z.lor b (not32 d)), (7 * z) mod 16) in
  let sum := w32 (f + a + nth i sines 0 + nth (Z.to_nat g) m 0) in
  {| ra := d; rb := w32 (b + rotl sum (nth i shifts 0)); rc := b; rd := c |}.

Definition le_word (b0 b1 b2 b3 : Z) : Z :=
  b0 + 256 * b1 + 65536 * b2 + 16777216 * b3.

Fixpoint words (bs : bytes) : list Z :=
  match bs with
  | b0 :: b1 :: b2 :: b3 :: rest => le_word b0 b1 b2 b3 :: words rest
  | _ => []
  end.

Definition le_bytes (n : nat) (x : Z) : bytes :=
  map (fun k => Z.shiftr x (8 * Z.of_nat k) mod 256) (seq 0 n).

Definition compress (r : Regs) (block : bytes) : Regs :=
  let r' := fold_left (operation (words block)) (seq 0 64) r in
  {| ra := w32 (ra r + ra r'); rb := w32 (rb r + rb r');
     rc := w32 (rc r + rc r'); rd := w32 (rd r + rd r') |}.

(** Padding: a [0x80] byte, zeros up to 56 modulo 64, the bit length in 64
    bits, least significant byte first. *)
Definition pad (msg : bytes) : bytes :=
  let len := Z.of_nat (length msg) in
  msg ++ [128] ++ repeat 0 (Z.to_nat ((55 - len) mod 64)) ++ le_bytes 8 (8 * len).

Fixpoint absorb (blocks : nat) (r : Regs) (bs : bytes) : Regs :=
  match blocks with
  | O => r
  | S k => absorb k (compress r (firstn 64 bs)) (skipn 64 bs)
  end.

Definition md5 (msg : bytes) : bytes :=
  let padded := pad msg in
  let r := absorb (length padded / 64)%nat initial padded in
  le_bytes 4 (ra r) ++ le_bytes 4 (rb r) ++ le_bytes 4 (rc r) ++ le_bytes 4 (rd r).

End Md5.

Definition bytes_of_string (s : string) : bytes :=
  map (fun c => Z.of_nat (nat_of_ascii c)) (list_ascii_of_string s).

Definition string_of_bytes (bs : bytes) : string :=
  string_of_list_ascii (map (fun b => ascii_of_nat (Z.to_nat b)) bs).

(** The object literal [packet] that [authenticateWithRadius] builds and hands
    to [radius.encode], attributes in the order written. *)
Module Packet.
Record t : Type := {
  code : string;
  identifier : Z;
  attributes : list (string * JsValue)
}.
End Packet.

(** What the message handler reads of the object [radius.decode] returns:
    [response.code], and [response.attributes], which may be missing. *)
Module Response.
Record t : Type := {
  code : string;
  attributes : option (gmap string JsValue)
}.
End Response.

Module Radius.

(** *** Wire layout (section 6 of the spec, RFC 2865)

    code: 1 byte, identifier: 1 byte, length: 2 bytes, authenticator: 16
    bytes, then the attributes. *)
Definition packet_code (p : bytes) : option Z := p !! 0%nat.
Definition packet_identifier (p : bytes) : option Z := p !! 1%nat.
Definition packet_authenticator (p : bytes) : bytes := firstn 16 (skipn 4 p).
Definition packet_attributes (p : bytes) : bytes := skipn 20 p.

(** Modelled from the spec: the response authenticator of section 4.1,
    "recomputed from the response body, the original request authenticator
    and the shared secret": MD5 over code, identifier, length, request
    authenticator, attributes and secret (RFC 2865, section 3). *)
Definition response_authenticator (p request_authenticator : bytes) (secret : string) : bytes :=
  Md5.md5 (firstn 4 p ++ request_authenticator ++ packet_attributes p ++ bytes_of_string secret).

(** **** Encoding *)

Definition xor_bytes (a b : bytes) : bytes := zip_with Z.lxor a b.

(** RFC 2865 section 5.2: each 16-byte block of the padded password is
    XOR-ed with the MD5 of the secret followed by the previous cipher block
    (the request authenticator for the first one). *)
Fixpoint hide_blocks (n : nat) (secret prev pwd : bytes) : bytes :=
  match n with
  | O => []
  | S k =>
      let c := xor_bytes (firstn 16 pwd) (Md5.md5 (secret ++ prev)) in
      c ++ hide_blocks k secret c (skipn 16 pwd)
  end.

Definition hide_password (secret : string) (request_authenticator pwd : bytes) : bytes :=
  let blocks := ((length pwd + 15) / 16)%nat in
  let padded := pwd ++ repeat 0 (blocks * 16 - length pwd)%nat in
  hide_blocks blocks (bytes_of_string secret) request_authenticator padded.

Definition tlv (type : Z) (value : bytes) : bytes :=
  type :: (2 + Z.of_nat (length value)) :: value.

Definition be_bytes (n : nat) (x : Z) : bytes := rev (Md5.le_bytes n x).

(** The four decimal fields of a dotted address. *)
Fixpoint split_dots (s : string) (cur : string) : list string :=
  match s with
  | String "." r => cur :: split_dots r ""
  | String c r => split_dots r (String.append cur (String c ""))
  | EmptyString => [cur]
  end.

Definition parse_ipv4 (s : string) : option bytes :=
  match mapM (fun f => digits_prefix 10 f None) (split_dots s "") with
  | Some ([a; b; c; d] as l) => if forallb (fun x => x <? 256) l then Some l else None
  | _ => None
  end.

Definition encode_attribute (secret : string) (request_authenticator : bytes)
    (a : string * JsValue) : Outcome bytes :=
  match a with
  | ("User-Name", JStr u) =>
      if 253 <? Z.of_nat (String.length u) then Throw "EncodeError"
      else Ok (tlv 1 (bytes_of_string u))
  | ("User-Password", JStr p) =>
      if 253 <? Z.of_nat (String.length p) then Throw "EncodeError"
      else Ok (tlv 2 (hide_password secret request_authenticator (bytes_of_string p)))
  | ("NAS-IP-Address", JStr ip) =>
      match parse_ipv4 ip with
      | Some b => Ok (tlv 4 b)
      | None => Throw "EncodeError"
      end
  | ("NAS-Port", JNum q) =>
      if (Zpos (Qden q) =? 1) && (0 <=? Qnum q) && (Qnum q <? 2 ^ 32)
      then Ok (tlv 5 (be_bytes 4 (Qnum q)))
      else Throw "EncodeError"
  | _ => Throw "EncodeError"
  end.

Fixpoint encode_attributes (secret : string) (request_authenticator : bytes)
    (l : list (string * JsValue)) : Outcome bytes :=
  match l with
  | [] => Ok []
  | a :: rest =>
      match encode_attribute secret request_authenticator a with
      | Throw m => Throw m
      | Ok b =>
          match encode_attributes secret request_authenticator rest with
          | Throw m => Throw m
          | Ok bs => Ok (b ++ bs)
          end
      end
  end.

(** Modelled from the spec: [radius.encode] is not in the sources.  Section
    4.1: a header (packet type Access-Request = 1, the chosen identifier, the
    overall length, a 16-byte request authenticator) followed by the
    attributes as type-length-value entries; [EncodeError] when the user name
    or the password is longer than 253 bytes or the secret is empty.  The 16
    random bytes are the first argument. *)
Definition encode (request_authenticator : bytes) (p : Packet.t) (secret : string)
    : Outcome bytes :=
  if String.eqb secret "" then Throw "EncodeError"
  else if negb (String.eqb (Packet.code p) "Access-Request") then Throw "EncodeError"
  else
    match encode_attributes secret request_authenticator (Packet.attributes p) with
    | Throw m => Throw m
    | Ok attrs =>
        let len := 20 + Z.of_nat (length attrs) in
        Ok ([1; Packet.identifier p] ++ be_bytes 2 len ++ request_authenticator ++ attrs)
    end.

(** **** Decoding *)

Definition code_name (c : Z) : option string :=
  if c =? 2 then Some "Access-Accept"
  else if c =? 3 then Some "Access-Reject"
  else None.

Definition show_digit (d : Z) : string :=
  String (ascii_of_nat (Z.to_nat (48 + d))) "".

Definition show_byte (b : Z) : string :=
  String.append (if 100 <=? b then show_digit (b / 100) else "")
    (String.append (if 10 <=? b then show_digit (b / 10 mod 10) else "")
       (show_digit (b mod 10))).

Definition be_value (bs : bytes) : Z := fold_left (fun acc b => 256 * acc + b) bs 0.

(** The attributes of section 6, by type tag. *)
Definition decode_attribute (type : Z) (value : bytes) : option (string * JsValue) :=
  if type =? 1 then Some ("User-Name", JStr (string_of_bytes value))
  else if type =? 2 then Some ("User-Password", JStr (string_of_bytes value))
  else if type =? 4 then
    Some ("NAS-IP-Address",
          JStr (String.concat "." (map show_byte value)))
  else if type =? 5 then Some ("NAS-Port", JNum (inject_Z (be_value value)))
  else if type =? 11 then Some ("Filter-Id", JStr (string_of_bytes value))
  else None.

(** The TLV walk: a later entry of the same name overwrites an earlier one;
    [MalformedPacket] when a length does not fit the remaining bytes. *)
Fixpoint walk (fuel : nat) (bs : bytes) (acc : gmap string JsValue)
    : Outcome (gmap string JsValue) :=
  match fuel, bs with
  | _, [] => Ok acc
  | S k, type :: len :: rest =>
      if (len <? 2) || (Z.of_nat (length rest) <? len - 2) then Throw "MalformedPacket"
      else
        let n := Z.to_nat (len - 2) in
        walk k (skipn n rest)
          match decode_attribute type (firstn n rest) with
          | Some (name, v) => <[name := v]> acc
          | None => acc
          end
  | _, _ => Throw "MalformedPacket"
  end.

(** Modelled from the spec: [radius.decode] is not in the sources.  The
    server gives it the datagram and the shared secret and nothing of the
    request, so of section 4.1 this is the part those two inputs allow: the
    packet type (Access-Accept = 2, Access-Reject = 3, [UnexpectedCode]
    otherwise) and the walk over the attributes. *)
Definition decode (packet : bytes) (secret : string) : Outcome Response.t :=
  match packet with
  | c :: _ :: hi :: lo :: _ =>
      let len := 256 * hi + lo in
      if (len <? 20) || (Z.of_nat (length packet) <? len) then Throw "MalformedPacket"
      else
        match code_name c with
        | None => Throw "UnexpectedCode"
        | Some name =>
            let attrs := firstn (Z.to_nat (len - 20)) (packet_attributes packet) in
            match walk (length attrs) attrs ∅ with
            | Throw m => Throw m
            | Ok a => Ok {| Response.code := name; Response.attributes := Some a |}
            end
        end
  | _ => Throw "MalformedPacket"
  end.

End Radius.

(** The object passed to [resolve]; a property that is not set is
    [JUndefined] (resp. [None]). *)
Module Result.
Record t : Type := {
  success : bool;
  filterId : JsValue;
  message : option string
}.
End Result.

(** The fields of [req.body] the handler uses; a field that is missing is
    [JUndefined]. *)
Module Body.
Record t : Type := {
  username : JsValue;
  password : JsValue
}.
End Body.

(** [res.status(status).json(json)]; [filterId] is [JUndefined] and
    [validation] is [None] where the object literal has no such property.
    [validation] holds its [status] and its [message]. *)
Module Http.
Record Json : Type := {
  success : bool;
  message : string;
  filterId : JsValue;
  validation : option (string * string)
}.
Record t : Type := {
  status : Z;
  json : Json
}.
End Http.

(** *** Concrete inputs

    One exchange against a server with the default configuration, used to
    run the model end to end. *)
Module Scenario.

(** [process.env] with none of the variables set. *)
Definition env : Env := ∅.

Definition secret : string := "testing123".

(** The sixteen random bytes of the request. *)
Definition request_authenticator : bytes :=
  [ 0x3a; 0x91; 0x07; 0xc4; 0x5e; 0xb2; 0x18; 0xf0;
    0x6d; 0x24; 0xe9; 0x53; 0x8c; 0x7b; 0xa1; 0x0f ].

Definition alice : Body.t :=
  {| Body.username := JStr "alice"; Body.password := JStr "correct" |}.

(** [Math.random()] returning 9/256: the identifier is 9. *)
Definition random : Q := 9 # 256.

(** The Access-Request that goes out for [alice] with identifier 9. *)
Definition request : bytes :=
  [ 1; 9; 0; 57;
    58; 145; 7; 196; 94; 178; 24; 240; 109; 36; 233; 83; 140; 123; 161; 15;
    1; 7; 97; 108; 105; 99; 101;
    2; 18; 40; 208; 95; 26; 27; 89; 145; 156; 115; 107; 51; 154; 49; 216; 179; 179;
    4; 6; 127; 0; 0; 1;
    5; 6; 0; 0; 0; 0 ].

(** A response with the given header fields and attribute bytes. *)
Definition datagram (code identifier : Z) (authenticator attrs : bytes) : bytes :=
  [code; identifier] ++ Radius.be_bytes 2 (20 + Z.of_nat (length attrs))
    ++ authenticator ++ attrs.

(** The response a RADIUS server holding the secret sends to a request with
    [request_authenticator]. *)
Definition reply (code identifier : Z) (attrs : bytes) : bytes :=
  datagram code identifier
    (Radius.response_authenticator
       (datagram code identifier (repeat 0 16) attrs) request_authenticator secret)
    attrs.

Definition filter_id (value : string) : bytes :=
  Radius.tlv 11 (bytes_of_string value).

(** A user name of 254 bytes, one more than an attribute can hold. *)
Definition long_name : string := string_of_bytes (repeat 97 254).

(** A datagram from anywhere: an [Access-Accept] with an identifier and an
    authenticator of the sender's choosing. *)
Definition forged (identifier : Z) : bytes :=
  datagram 2 identifier (repeat 0 16) (filter_id "StaffPolicy").

End Scenario.

(** ** The splash page script

    The script that runs in the browser.  Strings are sequences of code units
    below 256.  The helpers that touch the page ([showLoading],
    [showErrorMessage], ...) do nothing but set the text or the visibility of
    an element, so a run is recorded as the list of these calls. *)
Module Client.

(** [urlParams.get(name)] on the decoded name/value pairs of the query, in
    their order: the first value of the name, or [null]. *)
Definition get (urlParams : list (string * string)) (name : string) : option string :=
  snd <$> List.find (fun p => String.eqb (fst p) name) urlParams.

(** [value || ''] *)
Definition or_empty (value : option string) : string := default "" value.

(** [s.includes(':')] *)
Fixpoint includes_colon (s : string) : bool :=
  match s with
  | EmptyString => false
  | String c r => Ascii.eqb c ":" || includes_colon r
  end.

(** The loop that rebuilds [client_mac]:
    [for (let i = 0; i < client_mac.length; i += 2)
       formattedMac += client_mac.substr(i, 2) + (i < client_mac.length - 2 ? ':' : '')].
    The loop makes at most [client_mac.length] rounds. *)
Fixpoint format_mac_loop (rounds i : nat) (client_mac formattedMac : string) : string :=
  match rounds with
  | O => formattedMac
  | S rounds' =>
      if (i <? String.length client_mac)%nat then
        format_mac_loop rounds' (i + 2) client_mac
          (String.append formattedMac
             (String.append (substring i 2 client_mac)
                (if Z.of_nat i <? Z.of_nat (String.length client_mac) - 2
                 then ":" else "")))
      else formattedMac
  end.

Definition format_mac (client_mac : string) : string :=
  format_mac_loop (String.length client_mac) 0 client_mac "".

(** [if (client_mac) { if (!client_mac.includes(':')) { ... } }] *)
Definition fix_mac (client_mac : string) : string :=
  if String.eqb client_mac "" then client_mac
  else if negb (includes_colon client_mac) then format_mac client_mac
  else client_mac.

(** The global variables of the script. *)
Record Globals : Type := {
  base_grant_url : string;
  user_continue_url : string;
  node_mac : string;
  client_ip : string;
  client_mac : string
}.

(** The calls that change the page, and the assignment to
    [window.location.href]. *)
Inductive Action : Type :=
  | ShowLoading (show : bool)
  | HideMessages
  | HideValidationStatus
  | ShowErrorMessage (message : string)
  | ShowSuccessMessage (message : string)
  | ShowValidationStatus (status message : string)
  | Redirect (href : string).

Definition extractAndLogParameters (urlParams : list (string * string))
    : Globals * list Action :=
  let base_grant_url := or_empty (get urlParams "base_grant_url") in
  let user_continue_url := or_empty (get urlParams "user_continue_url") in
  let node_mac := or_empty (get urlParams "node_mac") in
  let client_ip := or_empty (get urlParams "client_ip") in
  let client_mac := fix_mac (or_empty (get urlParams "client_mac")) in
  ({| base_grant_url := base_grant_url; user_continue_url := user_continue_url;
      node_mac := node_mac; client_ip := client_ip; client_mac := client_mac |},
   if String.eqb base_grant_url "" || String.eqb user_continue_url ""
   then [ShowErrorMessage "This page must be accessed via Meraki splash page redirect."]
   else []).

(** *** [encodeURIComponent] *)

(** The characters left as they are: letters, digits and [- _ . ! ~ * ' ( )]. *)
Definition unreserved (c : ascii) : bool :=
  let n := nat_of_ascii c in
  ((48 <=? n) && (n <=? 57) || (65 <=? n) && (n <=? 90) || (97 <=? n) && (n <=? 122))%nat
  || existsb (Ascii.eqb c) (list_ascii_of_string "-_.!~*'()").

Definition hex_digit (n : nat) : ascii :=
  nth n (list_ascii_of_string "0123456789ABCDEF") "0"%char.

Definition percent (byte : nat) : string :=
  String "%" (String (hex_digit (byte / 16)) (String (hex_digit (byte mod 16)) "")).

(** One code unit: kept, or the escapes of its UTF-8 bytes (one byte below
    128, two from 128 to 255). *)
Definition encode_unit (c : ascii) : string :=
  let n := nat_of_ascii c in
  if unreserved c then String c ""
  else if (n <? 128)%nat then percent n
  else String.append (percent (192 + n / 64)) (percent (128 + n mod 64)).

Fixpoint encodeURIComponent (s : string) : string :=
  match s with
  | EmptyString => EmptyString
  | String c r => String.append (encode_unit c) (encodeURIComponent r)
  end.

(** *** Granting access *)

Definition grant_url (g : Globals) : string :=
  String.append (base_grant_url g)
    (String.append "?continue_url=" (encodeURIComponent (user_continue_url g))).

Definition grantNetworkAccess (g : Globals) : list Action :=
  if String.eqb (base_grant_url g) "" then
    [ShowErrorMessage "Cannot grant network access due to missing parameters.";
     ShowLoading false]
  else [Redirect (grant_url g)].

(** *** [performAuthentication] *)

(** The object given to [JSON.stringify] for the body of the request. *)
Record RequestBody : Type := {
  username : string;
  password : string;
  body_client_mac : string;
  body_client_ip : string;
  body_node_mac : string
}.

(** What [fetch] and [response.json()] come to: an exception, no answer at
    all, or the status and the parsed body (of the shape the server sends). *)
Inductive Fetched : Type :=
  | NetworkError
  | NoAnswer
  | Answered (status : Z) (data : Http.Json).

(** [value || fallback] on strings. *)
Definition or_else (value fallback : string) : string :=
  if String.eqb value "" then fallback else value.

(** [response.ok] *)
Definition ok (status : Z) : bool := (200 <=? status) && (status <=? 299).

(** The calls made for one submission of the form, and the delay of the
    timer that will call [grantNetworkAccess], when it is set. *)
Definition performAuthentication (g : Globals) (field_username field_password : string)
    (fetch : RequestBody -> Fetched) : list Action * option Z :=
  let before := [ShowLoading true; HideMessages; HideValidationStatus] in
  match fetch {| username := field_username; password := field_password;
                 body_client_mac := client_mac g; body_client_ip := client_ip g;
                 body_node_mac := node_mac g |} with
  | NoAnswer => (before, None)
  | NetworkError =>
      (before ++ [ShowErrorMessage "Network error. Please try again later.";
                  ShowLoading false], None)
  | Answered status data =>
      if ok status && Http.success data then
        (before ++
         [ShowSuccessMessage "Authentication successful!"] ++
         match Http.validation data with
         | Some (vstatus, vmessage) =>
             [ShowValidationStatus (or_else vstatus "success") (or_else vmessage "Access ")]
         | None => []
         end, Some 1500)
      else
        (before ++
         [ShowErrorMessage
            (or_else (Http.message data)
               "Authentication failed. Please check your credentials.")] ++
         match Http.validation data with
         | Some (vstatus, vmessage) =>
             [ShowValidationStatus (or_else vstatus "error") (or_else vmessage "Access denied")]
         | None => []
         end ++
         [ShowLoading false], None)
  end.

(** One submission followed through: the calls of [performAuthentication],
    then those of [grantNetworkAccess] when its timer was set. *)
Definition submit (g : Globals) (field_username field_password : string)
    (fetch : RequestBody -> Fetched) : list Action :=
  let '(actions, timer) := performAuthentication g field_username field_password fetch in
  match timer with
  | Some _ => actions ++ grantNetworkAccess g
  | None => actions
  end.

(** *** Auxiliary notions for the properties *)

(** The pairs of code units of a string, the last one possibly single. *)
Fixpoint pairs (s : string) : list string :=
  match s with
  | String a (String b r) => String a (String b "") :: pairs r
  | String a EmptyString => [String a ""]
  | EmptyString => []
  end.

Fixpoint strip_colons (s : string) : string :=
  match s with
  | EmptyString => EmptyString
  | String c r => if Ascii.eqb c ":" then strip_colons r else String c (strip_colons r)
  end.

(** The parameters of the redirect that [/test-splash] builds. *)
Definition test_splash_params : list (string * string) :=
  [ ("base_grant_url", "https://n143.network-auth.com/splash/grant");
    ("user_continue_url", "http://google.com");
    ("node_mac", "00:11:22:33:44:55");
    ("client_ip", "10.0.0.1");
    ("client_mac", "AA:BB:CC:DD:EE:FF") ].

Definition hex_value (c : ascii) : option nat :=
  let n := nat_of_ascii c in
  if ((48 <=? n) && (n <=? 57))%nat then Some (n - 48)%nat
  else if ((65 <=? n) && (n <=? 70))%nat then Some (n - 55)%nat
  else None.

(** Reading the escapes back: [%XX] below 128 is one unit, [%C2%XX] and
    [%C3%XX] are the units from 128 to 255. *)
Fixpoint unescape (s : string) : option string :=
  match s with
  | EmptyString => Some EmptyString
  | String "%" (String h1 (String h2 r)) =>
      match hex_value h1, hex_value h2 with
      | Some a, Some b =>
          let byte := (16 * a + b)%nat in
          if (byte <? 128)%nat then String (ascii_of_nat byte) <$> unescape r
          else
            match r with
            | String "%" (String k1 (String k2 r')) =>
                match hex_value k1, hex_value k2 with
                | Some c, Some d =>
                    String (ascii_of_nat ((byte - 192) * 64 + (16 * c + d - 128)))
                      <$> unescape r'
                | _, _ => None
                end
            | _ => None
            end
      | _, _ => None
      end
  | String c r => String c <$> unescape r
  end.

End Client.

(** ** The server

    [encode] and [decode] stand for [radius.encode] and [radius.decode], with
    the arguments the server gives them; [startup_env] is [process.env] when
    the module is loaded. *)

Section Server.

Variable encode : Packet.t -> string -> Outcome bytes.
Variable decode : bytes -> string -> Outcome Response.t.
Variable startup_env : Env.

(** *** Configuration constants *)

Definition RADIUS_HOST : string := env_or startup_env "RADIUS_HOST" "192.168.1.108".
Definition RADIUS_PORT : JsInteger := parseInt (env_or startup_env "RADIUS_PORT" "1812").
Definition RADIUS_SECRET : string := env_or startup_env "RADIUS_SECRET" "testing123".
Definition ALLOWED_FILTER_ID : string := env_or startup_env "ALLOWED_FILTER_ID" "StaffPolicy".
Definition ACCESS_DENIED_MESSAGE : string :=
  env_or startup_env "ACCESS_DENIED_MESSAGE" "You don't belong to this SSID".

(** [if (!RADIUS_SECRET) process.exit(1)]: whether the process goes on to
    serve requests. *)
Definition starts : bool := negb (String.eqb RADIUS_SECRET "").

(** *** [authenticateWithRadius] *)

(** The promise returned to the handler.  [resolve] and [reject] on a settled
    promise do nothing. *)
Inductive PromiseState : Type :=
  | Pending
  | Fulfilled (result : Result.t)
  | Rejected (error_message : string).

(** The closure of one call: the three local variables, the socket and the
    timer they refer to, and the promise.
    - [timeoutId] is the variable: [None] for [null], otherwise the delay the
      timer was created with;
    - [timerArmed] is Node's side of it: the timer is scheduled and has
      neither fired nor been cleared;
    - [listeners]: the ['error'] and ['message'] listeners are attached;
    - [socketsOpened], [socketCloses]: calls of [dgram.createSocket] and of
      [client.close];
    - [sent]: the buffers [client.send] accepted. *)
Record Attempt : Type := {
  clientClosed : bool;
  timeoutId : option Z;
  timerArmed : bool;
  listeners : bool;
  socketsOpened : nat;
  socketCloses : nat;
  sent : list bytes;
  promise : PromiseState
}.

Definition resolve (r : Result.t) (a : Attempt) : Attempt :=
  match promise a with
  | Pending =>
      {| clientClosed := clientClosed a; timeoutId := timeoutId a;
         timerArmed := timerArmed a; listeners := listeners a;
         socketsOpened := socketsOpened a; socketCloses := socketCloses a;
         sent := sent a; promise := Fulfilled r |}
  | _ => a
  end.

Definition reject (error_message : string) (a : Attempt) : Attempt :=
  match promise a with
  | Pending =>
      {| clientClosed := clientClosed a; timeoutId := timeoutId a;
         timerArmed := timerArmed a; listeners := listeners a;
         socketsOpened := socketsOpened a; socketCloses := socketCloses a;
         sent := sent a; promise := Rejected error_message |}
  | _ => a
  end.

Definition clearTimeoutSafely (a : Attempt) : Attempt :=
  match timeoutId a with
  | Some _ =>
      {| clientClosed := clientClosed a; timeoutId := None;
         timerArmed := false; listeners := listeners a;
         socketsOpened := socketsOpened a; socketCloses := socketCloses a;
         sent := sent a; promise := promise a |}
  | None => a
  end.

Definition closeSafely (a : Attempt) : Attempt :=
  if clientClosed a then a
  else
    {| clientClosed := true; timeoutId := timeoutId a;
       timerArmed := timerArmed a; listeners := false;
       socketsOpened := socketsOpened a; socketCloses := S (socketCloses a);
       sent := sent a; promise := promise a |}.

(** [client.on('error', ...)] *)
Definition on_error (err_message : string) (a : Attempt) : Attempt :=
  if negb (clientClosed a)
  then reject (String.append "Network error: " err_message)
         (closeSafely (clearTimeoutSafely a))
  else a.

(** [response.attributes && response.attributes['Filter-Id']
      ? response.attributes['Filter-Id'] : null] *)
Definition extract_filterId (response : Response.t) : JsValue :=
  match Response.attributes response with
  | Some attrs =>
      match attrs !! "Filter-Id" with
      | Some v => if truthy v then v else JNull
      | None => JNull
      end
  | None => JNull
  end.

(** [client.on('message', ...)] *)
Definition on_message (message : bytes) (a : Attempt) : Attempt :=
  if clientClosed a then a
  else
    let a := clearTimeoutSafely a in
    match decode message RADIUS_SECRET with
    | Ok response =>
        let a := closeSafely a in
        if String.eqb (Response.code response) "Access-Accept"
        then resolve {| Result.success := true;
                        Result.filterId := extract_filterId response;
                        Result.message := None |} a
        else resolve {| Result.success := false;
                        Result.filterId := JUndefined;
                        Result.message :=
                          Some "Authentication failed. Please check your credentials." |} a
    | Throw m =>
        reject (String.append "Failed to process authentication response: " m)
          (closeSafely a)
    end.

(** The callback given to [client.send]. *)
Definition on_send_done (err : option string) (a : Attempt) : Attempt :=
  match err with
  | Some m =>
      reject (String.append "Failed to send authentication request: " m)
        (closeSafely (clearTimeoutSafely a))
  | None => a
  end.

(** The callback given to [setTimeout]. *)
Definition on_timeout (a : Attempt) : Attempt :=
  resolve {| Result.success := false;
             Result.filterId := JUndefined;
             Result.message := Some "Authentication server timed out" |}
    (closeSafely a).

Definition TIMEOUT_MS : Z := 10000.

(** [client.send] itself throws when the port is not a number between 1 and
    65535 (Node's [ERR_SOCKET_BAD_PORT]); otherwise it takes the buffer. *)
Definition client_send (port : JsInteger) : Outcome unit :=
  match port with
  | Integer p => if (1 <=? p) && (p <=? 65535) then Ok tt else Throw "Port should be > 0 and < 65536"
  | NaN | Infinity _ => Throw "Port should be > 0 and < 65536"
  end.

(** [Math.floor(Math.random() * 256)], for the number [Math.random()]
    returned. *)
Definition random_identifier (random : Q) : Z := Qfloor (random * 256).

Definition request_packet (username password : JsValue) (random : Q) : Packet.t :=
  {| Packet.code := "Access-Request";
     Packet.identifier := random_identifier random;
     Packet.attributes :=
       [ ("User-Name", username);
         ("User-Password", password);
         ("NAS-IP-Address", JStr "127.0.0.1");
         ("NAS-Port", JNum 0) ] |}.

(** The body of the promise executor, up to the point where it returns to
    the event loop: the socket is created, the listeners are attached, the
    request is encoded and sent and the timer is set; an exception in the
    [try] block goes to its [catch]. *)
Definition start (username password : JsValue) (random : Q) : Attempt :=
  let a :=
    {| clientClosed := false; timeoutId := None; timerArmed := false;
       listeners := true; socketsOpened := 1; socketCloses := 0;
       sent := []; promise := Pending |} in
  let failed m :=
    reject (String.append "Failed to create authentication request: " m)
      (closeSafely a) in
  match encode (request_packet username password random) RADIUS_SECRET with
  | Throw m => failed m
  | Ok encoded =>
      match client_send RADIUS_PORT with
      | Throw m => failed m
      | Ok _ =>
          {| clientClosed := false; timeoutId := Some TIMEOUT_MS;
             timerArmed := true; listeners := true; socketsOpened := 1;
             socketCloses := 0; sent := [encoded]; promise := Pending |}
      end
  end.

(** *** The event loop, as far as one attempt sees it *)

Inductive Event : Type :=
  | Message (message : bytes)
  | SocketError (err_message : string)
  | SendDone (err : option string).

(** A listener runs only while it is attached; the send callback exists once
    a buffer was handed to the socket. *)
Definition dispatch (e : Event) (a : Attempt) : Attempt :=
  match e with
  | Message m => if listeners a then on_message m a else a
  | SocketError m => if listeners a then on_error m a else a
  | SendDone err =>
      match sent a with
      | [] => a
      | _ :: _ => on_send_done err a
      end
  end.

(** A timer that is still armed runs its callback once. *)
Definition fire_timer (a : Attempt) : Attempt :=
  if timerArmed a
  then on_timeout
         {| clientClosed := clientClosed a; timeoutId := timeoutId a;
            timerArmed := false; listeners := listeners a;
            socketsOpened := socketsOpened a; socketCloses := socketCloses a;
            sent := sent a; promise := promise a |}
  else a.

Definition timer_due (now : Z) (a : Attempt) : bool :=
  timerArmed a &&
  match timeoutId a with
  | Some delay => delay <=? now
  | None => false
  end.

(** Events carry the time, in milliseconds since the executor ran, at which
    the loop takes them up, and are processed in the order of the list.  A
    timer that is due runs before the event. *)
Fixpoint deliver (events : list (Z * Event)) (a : Attempt) : Attempt :=
  match events with
  | [] => a
  | (now, e) :: rest =>
      deliver rest (dispatch e (if timer_due now a then fire_timer a else a))
  end.

(** When the events are exhausted, time goes on until the timer, if still
    armed, fires. *)
Definition event_loop (events : list (Z * Event)) (a : Attempt) : Attempt :=
  fire_timer (deliver events a).

Definition authenticateWithRadius (username password : JsValue) (random : Q)
    (events : list (Z * Event)) : Attempt :=
  event_loop events (start username password random).

(** *** [POST /auth/radius] *)

(** The response, and the attempt when [authenticateWithRadius] was called. *)
Record Handled : Type := {
  response : option Http.t;
  attempt : option Attempt
}.

(** The part of the handler after [await]: [result] when the promise is
    fulfilled, the [catch] block when it is rejected, and no response while
    it is pending.  [env] is [process.env] at that moment. *)
Definition respond (env : Env) (p : PromiseState) : option Http.t :=
  match p with
  | Pending => None
  | Fulfilled result =>
      if Result.success result then
        if strict_eq_str (Result.filterId result) ALLOWED_FILTER_ID then
          let ACCESS_GRANTED_MESSAGE :=
            env_or env "ACCESS_GRANTED_MESSAGE" "Access granted - Account verified" in
          Some {| Http.status := 200;
                  Http.json :=
                    {| Http.success := true;
                       Http.message := "Authentication successful";
                       Http.filterId := Result.filterId result;
                       Http.validation := Some ("success", ACCESS_GRANTED_MESSAGE) |} |}
        else
          Some {| Http.status := 403;
                  Http.json :=
                    {| Http.success := false;
                       Http.message := ACCESS_DENIED_MESSAGE;
                       Http.filterId := Result.filterId result;
                       Http.validation :=
                         Some ("error",
                               String.append "Access denied - " ACCESS_DENIED_MESSAGE) |} |}
      else
        Some {| Http.status := 401;
                Http.json :=
                  {| Http.success := false;
                     Http.message :=
                       match Result.message result with
                       | Some m => if String.eqb m "" then "Authentication failed" else m
                       | None => "Authentication failed"
                       end;
                     Http.filterId := JUndefined;
                     Http.validation := None |} |}
  | Rejected _ =>
      Some {| Http.status := 500;
              Http.json :=
                {| Http.success := false;
                   Http.message := "Server error during authentication";
                   Http.filterId := JUndefined;
                   Http.validation := None |} |}
  end.

(** The properties of [process.env] that this part of the handler reads, in
    order: the branch that answers 200 evaluates
    [process.env.ACCESS_GRANTED_MESSAGE]; no other branch touches
    [process.env]. *)
Definition env_reads (p : PromiseState) : list string :=
  match p with
  | Fulfilled result =>
      if Result.success result then
        if strict_eq_str (Result.filterId result) ALLOWED_FILTER_ID
        then ["ACCESS_GRANTED_MESSAGE"]
        else []
      else []
  | _ => []
  end.

Definition auth_radius (env : Env) (body : Body.t) (random : Q)
    (events : list (Z * Event)) : Handled :=
  let username := Body.username body in
  let password := Body.password body in
  if negb (truthy username) || negb (truthy password) then
    {| response :=
         Some {| Http.status := 400;
                 Http.json :=
                   {| Http.success := false;
                      Http.message := "Username and password are required";
                      Http.filterId := JUndefined;
                      Http.validation := None |} |};
       attempt := None |}
  else
    let a := authenticateWithRadius username password random events in
    {| response := respond env (promise a); attempt := Some a |}.

(** *** The request logger

    [app.use] with [res.on('finish', ...)]: a line is written to the console
    when [res.statusCode >= 400 || duration > 1000]. *)
Definition request_logged (statusCode duration : Z) : bool :=
  (400 <=? statusCode) || (1000 <? duration).

(** *** The splash page talking to this server

    The body the page posts, as the handler receives it after
    [bodyParser.json], and the answer as [fetch] hands it back. *)
Definition fetch_auth (env : Env) (random : Q) (events : list (Z * Event))
    (body : Client.RequestBody) : Client.Fetched :=
  match response
          (auth_radius env
             {| Body.username := JStr (Client.username body);
                Body.password := JStr (Client.password body) |}
             random events) with
  | Some r => Client.Answered (Http.status r) (Http.json r)
  | None => Client.NoAnswer
  end.

Definition splash_login (env : Env) (random : Q) (events : list (Z * Event))
    (g : Client.Globals) (field_username field_password : string) : list Client.Action :=
  Client.submit g field_username field_password (fetch_auth env random events).

(** What can have settled the promise of an attempt whose request went out:
    the timer, or one of the events taken up before the timer was due. *)
Definition caused (events : list (Z * Event)) (p : PromiseState) : Prop :=
  p = Fulfilled
        {| Result.success := false; Result.filterId := JUndefined;
           Result.message := Some "Authentication server timed out" |} \/
  exists now e,
    In (now, e) events /\ now < TIMEOUT_MS /\
    match e with
    | Message m =>
        match decode m RADIUS_SECRET with
        | Ok response =>
            p = Fulfilled
                  (if String.eqb (Response.code response) "Access-Accept"
                   then {| Result.success := true;
                           Result.filterId := extract_filterId response;
                           Result.message := None |}
                   else {| Result.success := false;
                           Result.filterId := JUndefined;
                           Result.message :=
                             Some "Authentication failed. Please check your credentials." |})
        | Throw msg =>
            p = Rejected (String.append "Failed to process authentication response: " msg)
        end
    | SocketError msg => p = Rejected (String.append "Network error: " msg)
    | SendDone (Some msg) =>
        p = Rejected (String.append "Failed to send authentication request: " msg)
    | SendDone None => False
    end.

(** *** The two phases of an attempt *)

(** The attempt after a request went out: socket open, timer armed,
    listeners attached, promise pending. *)
Definition waiting (encoded : bytes) : Attempt :=
  {| clientClosed := false; timeoutId := Some TIMEOUT_MS; timerArmed := true;
     listeners := true; socketsOpened := 1; socketCloses := 0;
     sent := [encoded]; promise := Pending |}.

(** The attempt once it is over: the one socket closed once, no listener and
    no timer left, the promise settled. *)
Record Done (a : Attempt) : Prop := {
  done_closed : clientClosed a = true;
  done_timer : timerArmed a = false;
  done_listeners : listeners a = false;
  done_opened : socketsOpened a = 1%nat;
  done_closes : socketCloses a = 1%nat;
  done_sent : (length (sent a) <= 1)%nat;
  done_settled : promise a <> Pending
}.

(** An attempt is in one of the two. *)
Definition phase (a : Attempt) : Prop :=
  (exists encoded, a = waiting encoded) \/ Done a.

(** The event is the callback of a send that succeeded. *)
Definition send_succeeded (e : Event) : bool :=
  match e with
  | SendDone None => true
  | _ => false
  end.

(** Nothing but successful send callbacks is taken up before the timer is
    due. *)
Definition quiet (events : list (Z * Event)) : Prop :=
  forall now e, In (now, e) events -> now < TIMEOUT_MS -> e = SendDone None.

(** Successful send callbacks only, all taken up before the timer is due. *)
Definition idle (events : list (Z * Event)) : Prop :=
  forall now e, In (now, e) events -> now < TIMEOUT_MS /\ e = SendDone None.

(** The result the timer callback resolves with. *)
Definition timed_out : Result.t :=
  {| Result.success := false; Result.filterId := JUndefined;
     Result.message := Some "Authentication server timed out" |}.

(** What the message handler settles the promise with, given what
    [radius.decode] did on the datagram. *)
Definition settlement (d : Outcome Response.t) : PromiseState :=
  match d with
  | Ok response =>
      if String.eqb (Response.code response) "Access-Accept"
      then Fulfilled {| Result.success := true;
                        Result.filterId := extract_filterId response;
                        Result.message := None |}
      else Fulfilled {| Result.success := false;
                        Result.filterId := JUndefined;
                        Result.message :=
                          Some "Authentication failed. Please check your credentials." |}
  | Throw m => Rejected (String.append "Failed to process authentication response: " m)
  end.

(** ** Properties *)

Lemma resolve_settled r a : promise a <> Pending -> resolve r a = a.
Proof. unfold resolve. destruct (promise a); congruence. Qed.

Lemma reject_settled m a : promise a <> Pending -> reject m a = a.
Proof. unfold reject. destruct (promise a); congruence. Qed.

Lemma closeSafely_closed a : clientClosed a = true -> closeSafely a = a.
Proof. unfold closeSafely. intros ->. reflexivity. Qed.

Lemma promise_resolve r a :
  promise (resolve r a) = match promise a with Pending => Fulfilled r | p => p end.
Proof. unfold resolve. destruct (promise a) eqn:E; simpl; congruence. Qed.

Lemma promise_reject m a :
  promise (reject m a) = match promise a with Pending => Rejected m | p => p end.
Proof. unfold reject. destruct (promise a) eqn:E; simpl; congruence. Qed.

Lemma promise_closeSafely a : promise (closeSafely a) = promise a.
Proof. unfold closeSafely. destruct (clientClosed a); reflexivity. Qed.

Lemma promise_clearTimeoutSafely a : promise (clearTimeoutSafely a) = promise a.
Proof. unfold clearTimeoutSafely. destruct (timeoutId a); reflexivity. Qed.

(** Once the promise is settled, no callback changes it. *)
Lemma promise_on_message m a : promise a <> Pending -> promise (on_message m a) = promise a.
Proof.
  intros H. unfold on_message.
  destruct (clientClosed a); [reflexivity|].
  destruct (decode m RADIUS_SECRET) as [response|msg].
  - destruct (String.eqb _ _);
      rewrite promise_resolve, promise_closeSafely, promise_clearTimeoutSafely;
      destruct (promise a); congruence.
  - rewrite promise_reject, promise_closeSafely, promise_clearTimeoutSafely.
    destruct (promise a); congruence.
Qed.

Lemma promise_on_error m a : promise a <> Pending -> promise (on_error m a) = promise a.
Proof.
  intros H. unfold on_error. destruct (negb _); [|reflexivity].
  rewrite promise_reject, promise_closeSafely, promise_clearTimeoutSafely.
  destruct (promise a); congruence.
Qed.

Lemma promise_on_send_done err a :
  promise a <> Pending -> promise (on_send_done err a) = promise a.
Proof.
  intros H. destruct err as [m|]; [|reflexivity]. simpl.
  rewrite promise_reject, promise_closeSafely, promise_clearTimeoutSafely.
  destruct (promise a); congruence.
Qed.

Lemma promise_on_timeout a : promise a <> Pending -> promise (on_timeout a) = promise a.
Proof.
  intros H. unfold on_timeout. rewrite promise_resolve, promise_closeSafely.
  destruct (promise a); congruence.
Qed.

Lemma promise_dispatch e a : promise a <> Pending -> promise (dispatch e a) = promise a.
Proof.
  intros H. destruct e as [m|m|err]; simpl.
  - destruct (listeners a); auto using promise_on_message.
  - destruct (listeners a); auto using promise_on_error.
  - destruct (sent a); auto using promise_on_send_done.
Qed.

Lemma promise_fire_timer a : promise a <> Pending -> promise (fire_timer a) = promise a.
Proof.
  intros H. unfold fire_timer. destruct (timerArmed a); [|reflexivity].
  rewrite promise_on_timeout; auto.
Qed.

Lemma promise_deliver events : forall a,
  promise a <> Pending -> promise (deliver events a) = promise a.
Proof.
  induction events as [|[now e] rest IH]; intros a H; simpl; [reflexivity|].
  assert (Ht : promise (if timer_due now a then fire_timer a else a) = promise a).
  { destruct (timer_due now a); auto using promise_fire_timer. }
  rewrite IH; rewrite promise_dispatch; congruence.
Qed.

Lemma promise_event_loop events a :
  promise a <> Pending -> promise (event_loop events a) = promise a.
Proof.
  intros H. unfold event_loop.
  rewrite promise_fire_timer; rewrite promise_deliver; congruence.
Qed.

(** **** Every reachable state is waiting or done *)

Lemma start_sent username password random encoded :
  encode (request_packet username password random) RADIUS_SECRET = Ok encoded ->
  client_send RADIUS_PORT = Ok tt ->
  start username password random = waiting encoded.
Proof. intros He Hs. unfold start. rewrite He, Hs. reflexivity. Qed.

Lemma start_not_sent username password random :
  (forall encoded,
      encode (request_packet username password random) RADIUS_SECRET = Ok encoded ->
      client_send RADIUS_PORT <> Ok tt) ->
  Done (start username password random) /\
  sent (start username password random) = [] /\
  exists m,
    promise (start username password random) =
    Rejected (String.append "Failed to create authentication request: " m).
Proof.
  intros H. unfold start.
  destruct (encode _ _) as [encoded|m].
  - specialize (H encoded eq_refl).
    destruct (client_send RADIUS_PORT) as [[]|m]; [congruence|].
    repeat split; simpl; try lia; try congruence; eauto.
  - repeat split; simpl; try lia; try congruence; eauto.
Qed.

Lemma start_phase username password random :
  (exists encoded, start username password random = waiting encoded) \/
  Done (start username password random).
Proof.
  destruct (encode (request_packet username password random) RADIUS_SECRET)
    as [encoded|m] eqn:He.
  - destruct (client_send RADIUS_PORT) as [[]|m] eqn:Hs.
    + left. exists encoded. apply start_sent; assumption.
    + right. apply start_not_sent. intros encoded' _. congruence.
  - right. apply start_not_sent. intros encoded' He'. congruence.
Qed.

Lemma on_message_waiting m encoded :
  Done (on_message m (waiting encoded)) /\
  promise (on_message m (waiting encoded)) = settlement (decode m RADIUS_SECRET).
Proof.
  unfold on_message, settlement. simpl.
  destruct (decode m RADIUS_SECRET) as [response|msg]; simpl.
  - destruct (String.eqb _ _); simpl;
      (split; [constructor; simpl; try lia; congruence | reflexivity]).
  - split; [constructor; simpl; try lia; congruence | reflexivity].
Qed.

Lemma on_error_waiting m encoded :
  Done (on_error m (waiting encoded)) /\
  promise (on_error m (waiting encoded)) = Rejected (String.append "Network error: " m).
Proof. split; [constructor; simpl; try lia; congruence | reflexivity]. Qed.

Lemma on_send_failed_waiting m encoded :
  Done (on_send_done (Some m) (waiting encoded)) /\
  promise (on_send_done (Some m) (waiting encoded)) =
  Rejected (String.append "Failed to send authentication request: " m).
Proof. split; [constructor; simpl; try lia; congruence | reflexivity]. Qed.

Lemma fire_timer_waiting encoded :
  Done (fire_timer (waiting encoded)) /\
  promise (fire_timer (waiting encoded)) = Fulfilled timed_out.
Proof. split; [constructor; simpl; try lia; congruence | reflexivity]. Qed.

Lemma dispatch_waiting e encoded :
  (send_succeeded e = true /\ dispatch e (waiting encoded) = waiting encoded) \/
  (send_succeeded e = false /\ Done (dispatch e (waiting encoded))).
Proof.
  destruct e as [m|m|[m|]]; simpl.
  - right. split; [reflexivity | apply on_message_waiting].
  - right. split; [reflexivity | apply on_error_waiting].
  - right. split; [reflexivity | apply on_send_failed_waiting].
  - left. split; reflexivity.
Qed.

(** In a state that is done, the message handler, the error handler and the
    timer callback leave every variable as it is, whether the event loop
    still calls them or not. *)
Lemma on_message_done m a : Done a -> on_message m a = a.
Proof. intros [Hc _ _ _ _ _ _]. unfold on_message. rewrite Hc. reflexivity. Qed.

Lemma on_error_done m a : Done a -> on_error m a = a.
Proof. intros [Hc _ _ _ _ _ _]. unfold on_error. rewrite Hc. reflexivity. Qed.

Lemma on_timeout_done a : Done a -> on_timeout a = a.
Proof.
  intros [Hc _ _ _ _ _ Hp]. unfold on_timeout.
  rewrite closeSafely_closed by assumption. apply resolve_settled, Hp.
Qed.

Lemma fire_timer_done a : Done a -> fire_timer a = a.
Proof. intros [_ Ht _ _ _ _ _]. unfold fire_timer. rewrite Ht. reflexivity. Qed.

Lemma dispatch_listener_done e a :
  Done a -> (forall err, e <> SendDone err) -> dispatch e a = a.
Proof.
  intros [_ _ Hl _ _ _ _] He. destruct e as [m|m|err]; simpl.
  - rewrite Hl. reflexivity.
  - rewrite Hl. reflexivity.
  - destruct (He err). reflexivity.
Qed.

(** A late send callback may still reset [timeoutId]; the attempt stays
    done. *)
Lemma dispatch_done e a : Done a -> Done (dispatch e a).
Proof.
  intros D. destruct e as [m|m|[m|]].
  - rewrite dispatch_listener_done by (assumption || congruence). assumption.
  - rewrite dispatch_listener_done by (assumption || congruence). assumption.
  - destruct D as [Hc Ht Hl Ho Hn Hs Hp]. simpl.
    destruct (sent a) as [|encoded l] eqn:E.
    + constructor; try assumption. rewrite E. simpl. lia.
    + assert (Hx : reject (String.append "Failed to send authentication request: " m)
                    (closeSafely (clearTimeoutSafely a)) = clearTimeoutSafely a).
      { rewrite closeSafely_closed.
        - apply reject_settled. rewrite promise_clearTimeoutSafely. assumption.
        - unfold clearTimeoutSafely. destruct (timeoutId a); assumption. }
      rewrite Hx. unfold clearTimeoutSafely.
      destruct (timeoutId a); constructor; simpl; try assumption; try reflexivity;
        rewrite E; assumption.
  - simpl. destruct (sent a); assumption.
Qed.

Lemma tick_phase now a : phase a -> phase (if timer_due now a then fire_timer a else a).
Proof.
  intros H. destruct (timer_due now a); [|assumption].
  destruct H as [[encoded ->]|D].
  - right. apply fire_timer_waiting.
  - rewrite fire_timer_done; [right|]; assumption.
Qed.

Lemma dispatch_phase e a : phase a -> phase (dispatch e a).
Proof.
  intros [[encoded ->]|D].
  - destruct (dispatch_waiting e encoded) as [[_ ->]|[_ D]].
    + left. eauto.
    + right. assumption.
  - right. apply dispatch_done, D.
Qed.

Lemma deliver_phase events : forall a, phase a -> phase (deliver events a).
Proof.
  induction events as [|[now e] rest IH]; intros a H; simpl; [assumption|].
  apply IH, dispatch_phase, tick_phase, H.
Qed.

Lemma fire_timer_phase a : phase a -> Done (fire_timer a).
Proof.
  intros [[encoded ->]|D].
  - apply fire_timer_waiting.
  - rewrite fire_timer_done; assumption.
Qed.

Lemma pending_phase a :
  phase a -> promise a = Pending -> exists encoded, a = waiting encoded.
Proof. intros [H|D] Hp; [assumption|]. destruct D. congruence. Qed.

Lemma settled_phase a : phase a -> promise a <> Pending -> Done a.
Proof. intros [[encoded ->]|D] Hp; [|assumption]. simpl in Hp. congruence. Qed.

(** **** Runs from the waiting state *)

Lemma timer_due_waiting now encoded :
  timer_due now (waiting encoded) = (TIMEOUT_MS <=? now).
Proof. reflexivity. Qed.

Lemma timer_not_due now encoded :
  now < TIMEOUT_MS -> timer_due now (waiting encoded) = false.
Proof. intros H. rewrite timer_due_waiting. apply Z.leb_gt. assumption. Qed.

Lemma deliver_cons now e rest a :
  deliver ((now, e) :: rest) a =
  deliver rest (dispatch e (if timer_due now a then fire_timer a else a)).
Proof. reflexivity. Qed.

Lemma deliver_idle encoded pre :
  idle pre -> deliver pre (waiting encoded) = waiting encoded.
Proof.
  induction pre as [|[now e] rest IH]; intros H; [reflexivity|].
  destruct (H now e) as [Hnow ->]; [left; reflexivity|].
  rewrite deliver_cons, timer_not_due by assumption.
  apply IH. intros now' e' Hin. apply H. right. assumption.
Qed.

Lemma deliver_app pre rest : forall a,
  deliver (pre ++ rest) a = deliver rest (deliver pre a).
Proof.
  induction pre as [|[now e] pre IH]; intros a; simpl; [reflexivity|]. apply IH.
Qed.

(** The first event that is not a successful send callback, taken up before
    the timer is due, settles the attempt. *)
Lemma first_event_settles encoded pre now e rest :
  idle pre -> now < TIMEOUT_MS -> send_succeeded e = false ->
  promise (event_loop (pre ++ (now, e) :: rest) (waiting encoded)) =
  promise (dispatch e (waiting encoded)).
Proof.
  intros Hpre Hnow He. unfold event_loop.
  rewrite deliver_app, deliver_idle, deliver_cons, timer_not_due by assumption.
  destruct (dispatch_waiting e encoded) as [[He' _]|[_ D]]; [congruence|].
  destruct D.
  rewrite promise_fire_timer; rewrite promise_deliver; auto.
Qed.

(** With nothing else before it is due, the timer settles the attempt. *)
Lemma quiet_deliver encoded events :
  quiet events ->
  deliver events (waiting encoded) = waiting encoded \/
  (Done (deliver events (waiting encoded)) /\
   promise (deliver events (waiting encoded)) = Fulfilled timed_out).
Proof.
  induction events as [|[now e] rest IH]; intros H; [left; reflexivity|].
  assert (Hrest : quiet rest).
  { intros now' e' Hin. apply H. right. assumption. }
  rewrite deliver_cons, timer_due_waiting.
  destruct (TIMEOUT_MS <=? now) eqn:Hdue.
  - right.
    destruct (fire_timer_waiting encoded) as [D Hp].
    assert (D' : Done (dispatch e (fire_timer (waiting encoded)))) by (apply dispatch_done, D).
    split.
    + apply settled_phase.
      * apply deliver_phase. right. assumption.
      * rewrite promise_deliver; destruct D'; assumption.
    + rewrite promise_deliver by (destruct D'; assumption).
      rewrite promise_dispatch by (destruct D; assumption). assumption.
  - apply Z.leb_gt in Hdue.
    rewrite (H now e) by (assumption || (left; reflexivity)).
    apply IH, Hrest.
Qed.

Lemma quiet_times_out encoded events :
  quiet events ->
  Done (event_loop events (waiting encoded)) /\
  promise (event_loop events (waiting encoded)) = Fulfilled timed_out.
Proof.
  intros H. unfold event_loop.
  destruct (quiet_deliver encoded events H) as [->|[D Hp]].
  - apply fire_timer_waiting.
  - rewrite fire_timer_done by assumption. split; assumption.
Qed.

(** The buffers handed to the socket do not change after [start]. *)
Lemma sent_closeSafely a : sent (closeSafely a) = sent a.
Proof. unfold closeSafely. destruct (clientClosed a); reflexivity. Qed.

Lemma sent_clearTimeoutSafely a : sent (clearTimeoutSafely a) = sent a.
Proof. unfold clearTimeoutSafely. destruct (timeoutId a); reflexivity. Qed.

Lemma sent_resolve r a : sent (resolve r a) = sent a.
Proof. unfold resolve. destruct (promise a); reflexivity. Qed.

Lemma sent_reject m a : sent (reject m a) = sent a.
Proof. unfold reject. destruct (promise a); reflexivity. Qed.

Lemma sent_dispatch e a : sent (dispatch e a) = sent a.
Proof.
  destruct e as [m|m|[m|]]; simpl.
  - destruct (listeners a); [|reflexivity]. unfold on_message.
    destruct (clientClosed a); [reflexivity|].
    destruct (decode m RADIUS_SECRET); [destruct (String.eqb _ _)|];
      rewrite ?sent_resolve, ?sent_reject, sent_closeSafely, sent_clearTimeoutSafely;
      reflexivity.
  - destruct (listeners a); [|reflexivity]. unfold on_error.
    destruct (negb _); [|reflexivity].
    rewrite sent_reject, sent_closeSafely, sent_clearTimeoutSafely. reflexivity.
  - destruct (sent a) eqn:E; [assumption|].
    rewrite sent_reject, sent_closeSafely, sent_clearTimeoutSafely. assumption.
  - destruct (sent a) eqn:E; assumption.
Qed.

Lemma sent_fire_timer a : sent (fire_timer a) = sent a.
Proof.
  unfold fire_timer. destruct (timerArmed a); [|reflexivity].
  unfold on_timeout. rewrite sent_resolve, sent_closeSafely. reflexivity.
Qed.

Lemma sent_deliver events : forall a, sent (deliver events a) = sent a.
Proof.
  induction events as [|[now e] rest IH]; intros a; simpl; [reflexivity|].
  rewrite IH, sent_dispatch. destruct (timer_due now a); auto using sent_fire_timer.
Qed.

Lemma sent_event_loop events a : sent (event_loop events a) = sent a.
Proof. unfold event_loop. rewrite sent_fire_timer. apply sent_deliver. Qed.

Lemma env_or_nonempty env name dflt : dflt <> "" -> env_or env name dflt <> "".
Proof.
  intros H. unfold env_or. destruct (env !! name) as [v|]; [|assumption].
  destruct (String.eqb v "") eqn:E; [assumption|].
  apply String.eqb_neq. assumption.
Qed.

Lemma append_inj_l prefix : forall a b,
  String.append prefix a = String.append prefix b -> a = b.
Proof.
  induction prefix as [|c prefix IH]; intros a b H; simpl in H; [assumption|].
  injection H as H. apply IH, H.
Qed.

(** **** The message handler and the identifier, the authenticator *)

(** C1, as amended.  The message handler compares no identifier: once the
    request is out, the first datagram taken up before the timer is due
    settles the attempt by what [radius.decode] makes of the datagram and the
    shared secret alone (fulfilled as a success for [Access-Accept], as a
    failure for any other code, rejected when decoding throws), whatever
    identifier the datagram carries and whatever identifier the request was
    given. *)
Theorem datagram_settles_whatever_identifier
    username password random encoded pre now message rest :
  encode (request_packet username password random) RADIUS_SECRET = Ok encoded ->
  client_send RADIUS_PORT = Ok tt ->
  idle pre -> now < TIMEOUT_MS ->
  promise (authenticateWithRadius username password random
             (pre ++ (now, Message message) :: rest)) =
  settlement (decode message RADIUS_SECRET).
Proof.
  intros He Hs Hpre Hnow. unfold authenticateWithRadius.
  rewrite (start_sent _ _ _ _ He Hs).
  rewrite first_event_settles by (assumption || reflexivity).
  apply on_message_waiting.
Qed.

(** C2, as amended.  Decoding is given the datagram and the shared secret and
    nothing of the request: the attempt fails on a response exactly when
    [radius.decode] throws on these two, the promise then being rejected with
    the message of that exception, and the outcome is the same whatever
    request (and so whatever request authenticator) went out. *)
Theorem decode_sees_datagram_and_secret_only message encoded :
  let a := on_message message (waiting encoded) in
  promise a = settlement (decode message RADIUS_SECRET) /\
  (forall m,
      promise a = Rejected (String.append "Failed to process authentication response: " m)
      <-> decode message RADIUS_SECRET = Throw m) /\
  (forall encoded', promise (on_message message (waiting encoded')) = promise a).
Proof.
  cbv zeta. destruct (on_message_waiting message encoded) as [_ Hp].
  split; [assumption|]. split.
  - intros m. rewrite Hp. unfold settlement.
    destruct (decode message RADIUS_SECRET) as [response|m'].
    + destruct (String.eqb _ _); split; intros H; discriminate H.
    + split; intros H.
      * injection H as H. apply append_inj_l in H. congruence.
      * congruence.
  - intros encoded'. rewrite Hp. apply on_message_waiting.
Qed.

(** **** Single resolution *)

(** C3.  Once the promise is settled, a later datagram, a later firing of the
    timer and a later socket error change nothing at all, be it through the
    event loop or by a direct call of the callback, and no sequence of later
    events changes the outcome. *)
Theorem resolves_at_most_once username password random events :
  let a := deliver events (start username password random) in
  promise a <> Pending ->
  (forall m, on_message m a = a /\ dispatch (Message m) a = a) /\
  (on_timeout a = a /\ fire_timer a = a) /\
  (forall m, on_error m a = a /\ dispatch (SocketError m) a = a) /\
  (forall later,
      promise (deliver later a) = promise a /\
      promise (event_loop later a) = promise a).
Proof.
  cbv zeta. intros Hp.
  assert (D : Done (deliver events (start username password random))).
  { apply settled_phase; [|assumption]. apply deliver_phase, start_phase. }
  repeat split.
  - apply on_message_done, D.
  - apply dispatch_listener_done; [assumption | congruence].
  - apply on_timeout_done, D.
  - apply fire_timer_done, D.
  - apply on_error_done, D.
  - apply dispatch_listener_done; [assumption | congruence].
  - apply promise_deliver, Hp.
  - apply promise_event_loop, Hp.
Qed.

(** **** Authorization on [Filter-Id] *)

(** C4.  An [Access-Accept] whose attributes hold a [Filter-Id]: when the
    value is the configured one the answer is 200 with [success: true], the
    [filterId] and the grant message; for any other value it is 403 with
    [success: false] and the configured deny message. *)
Theorem filter_id_decides env encoded message response attrs v :
  decode message RADIUS_SECRET = Ok response ->
  Response.code response = "Access-Accept" ->
  Response.attributes response = Some attrs ->
  attrs !! "Filter-Id" = Some v ->
  let r := respond env (promise (on_message message (waiting encoded))) in
  (v = JStr ALLOWED_FILTER_ID ->
   r = Some {| Http.status := 200;
               Http.json :=
                 {| Http.success := true;
                    Http.message := "Authentication successful";
                    Http.filterId := JStr ALLOWED_FILTER_ID;
                    Http.validation :=
                      Some ("success",
                            env_or env "ACCESS_GRANTED_MESSAGE"
                              "Access granted - Account verified") |} |}) /\
  (v <> JStr ALLOWED_FILTER_ID ->
   r = Some {| Http.status := 403;
               Http.json :=
                 {| Http.success := false;
                    Http.message := ACCESS_DENIED_MESSAGE;
                    Http.filterId := if truthy v then v else JNull;
                    Http.validation :=
                      Some ("error",
                            String.append "Access denied - " ACCESS_DENIED_MESSAGE) |} |}).
Proof.
  intros Hd Hc Ha Hv. cbv zeta.
  destruct (on_message_waiting message encoded) as [_ ->].
  rewrite Hd. unfold settlement. rewrite Hc. simpl String.eqb. cbv iota.
  assert (Hf : extract_filterId response = if truthy v then v else JNull).
  { unfold extract_filterId. rewrite Ha, Hv. reflexivity. }
  unfold respond. simpl Result.success. simpl Result.filterId. cbv iota. rewrite Hf.
  split.
  - intros ->.
    assert (Ht : truthy (JStr ALLOWED_FILTER_ID) = true).
    { simpl. apply negb_true_iff, String.eqb_neq, env_or_nonempty. discriminate. }
    rewrite Ht. simpl strict_eq_str. rewrite String.eqb_refl. reflexivity.
  - intros Hne.
    assert (Hs : strict_eq_str (if truthy v then v else JNull) ALLOWED_FILTER_ID = false).
    { destruct (truthy v); [|reflexivity].
      destruct v as [| |b|q|t|]; try reflexivity. simpl.
      apply String.eqb_neq. congruence. }
    rewrite Hs. reflexivity.
Qed.

(** C5.  An [Access-Accept] without a [Filter-Id] is answered 403, a denial
    and not an error: [filterId] is [null] and the body carries the deny
    message. *)
Theorem missing_filter_id_denied env encoded message response :
  decode message RADIUS_SECRET = Ok response ->
  Response.code response = "Access-Accept" ->
  (forall attrs, Response.attributes response = Some attrs -> attrs !! "Filter-Id" = None) ->
  promise (on_message message (waiting encoded)) =
    Fulfilled {| Result.success := true; Result.filterId := JNull;
                 Result.message := None |} /\
  respond env (promise (on_message message (waiting encoded))) =
    Some {| Http.status := 403;
            Http.json :=
              {| Http.success := false;
                 Http.message := ACCESS_DENIED_MESSAGE;
                 Http.filterId := JNull;
                 Http.validation :=
                   Some ("error",
                         String.append "Access denied - " ACCESS_DENIED_MESSAGE) |} |}.
Proof.
  intros Hd Hc Ha.
  destruct (on_message_waiting message encoded) as [_ ->].
  rewrite Hd. unfold settlement. rewrite Hc. simpl String.eqb. cbv iota.
  assert (Hf : extract_filterId response = JNull).
  { unfold extract_filterId.
    destruct (Response.attributes response) as [attrs|]; [|reflexivity].
    rewrite (Ha attrs eq_refl). reflexivity. }
  rewrite Hf. split; reflexivity.
Qed.

(** **** Configuration *)

Lemma env_or_unset env name dflt :
  env !! name = None \/ env !! name = Some "" -> env_or env name dflt = dflt.
Proof. unfold env_or. intros [-> | ->]; reflexivity. Qed.

(** The shared secret is never empty, so the startup check never stops the
    process. *)
Lemma starts_always : starts = true.
Proof.
  unfold starts. apply negb_true_iff, String.eqb_neq, env_or_nonempty. discriminate.
Qed.

Lemma default_port :
  startup_env !! "RADIUS_PORT" = None \/ startup_env !! "RADIUS_PORT" = Some "" ->
  RADIUS_PORT = Integer 1812.
Proof. intros H. unfold RADIUS_PORT. rewrite env_or_unset by assumption. reflexivity. Qed.

Lemma default_filter_id :
  startup_env !! "ALLOWED_FILTER_ID" = None \/ startup_env !! "ALLOWED_FILTER_ID" = Some "" ->
  ALLOWED_FILTER_ID = "StaffPolicy".
Proof. intros H. apply env_or_unset, H. Qed.

(** The one variable the handler reads from the environment of the request
    is [ACCESS_GRANTED_MESSAGE]: two environments that agree on it give the
    same response. *)
Lemma respond_reads_granted_message env env' p :
  env !! "ACCESS_GRANTED_MESSAGE" = env' !! "ACCESS_GRANTED_MESSAGE" ->
  respond env p = respond env' p.
Proof. intros H. unfold respond, env_or. rewrite H. reflexivity. Qed.

(** The reads listed by [env_reads] are all the response depends on, and
    each of them reaches the response. *)
Lemma respond_depends_on_reads env env' p :
  (forall name, In name (env_reads p) -> env !! name = env' !! name) ->
  respond env p = respond env' p.
Proof.
  intros H. destruct p as [|result|m]; try reflexivity.
  unfold respond, env_reads in *.
  destruct (Result.success result); [|reflexivity].
  destruct (strict_eq_str _ _); [|reflexivity].
  unfold env_or. rewrite (H "ACCESS_GRANTED_MESSAGE"); [reflexivity | left; reflexivity].
Qed.

Lemma env_reads_granted env p :
  env_reads p = ["ACCESS_GRANTED_MESSAGE"] <-> Http.status <$> respond env p = Some 200.
Proof.
  destruct p as [|result|m]; cbn; try (split; discriminate).
  destruct (Result.success result); [|split; discriminate].
  destruct (strict_eq_str _ _); split; (reflexivity || discriminate).
Qed.

(** **** The endpoint *)

Lemma auth_radius_missing env body random events :
  truthy (Body.username body) && truthy (Body.password body) = false ->
  auth_radius env body random events =
  {| response :=
       Some {| Http.status := 400;
               Http.json :=
                 {| Http.success := false;
                    Http.message := "Username and password are required";
                    Http.filterId := JUndefined;
                    Http.validation := None |} |};
     attempt := None |}.
Proof.
  intros H. unfold auth_radius.
  destruct (truthy (Body.username body)), (truthy (Body.password body));
    simpl in *; congruence.
Qed.

Lemma auth_radius_present env body random events :
  truthy (Body.username body) && truthy (Body.password body) = true ->
  auth_radius env body random events =
  let a := authenticateWithRadius (Body.username body) (Body.password body) random events in
  {| response := respond env (promise a); attempt := Some a |}.
Proof.
  intros H. apply andb_true_iff in H as [Hu Hp].
  unfold auth_radius. rewrite Hu, Hp. reflexivity.
Qed.

(** C6, as amended.  400 when a credential is missing.  Otherwise: 500 when
    the request cannot be created; once it is out, 401 when the timer fires
    first, and for the first other event before that: a response that decodes
    gives 401 unless it is an [Access-Accept], for which it is 200 or 403 by
    the [Filter-Id]; a response on which decoding throws, a socket error and
    a failed send all give 500. *)
Theorem http_status_by_exit env body random :
  let status events :=
    Http.status <$> response (auth_radius env body random events) in
  let username := Body.username body in
  let password := Body.password body in
  (truthy username && truthy password = false ->
   forall events, status events = Some 400) /\
  (truthy username && truthy password = true ->
   ((forall encoded,
        encode (request_packet username password random) RADIUS_SECRET = Ok encoded ->
        client_send RADIUS_PORT <> Ok tt) ->
    forall events, status events = Some 500) /\
   (forall encoded,
       encode (request_packet username password random) RADIUS_SECRET = Ok encoded ->
       client_send RADIUS_PORT = Ok tt ->
       (forall events, quiet events -> status events = Some 401) /\
       (forall pre now e rest,
           idle pre -> now < TIMEOUT_MS -> send_succeeded e = false ->
           status (pre ++ (now, e) :: rest) =
           match e with
           | Message m =>
               match decode m RADIUS_SECRET with
               | Ok response =>
                   if String.eqb (Response.code response) "Access-Accept" then
                     if strict_eq_str (extract_filterId response) ALLOWED_FILTER_ID
                     then Some 200 else Some 403
                   else Some 401
               | Throw _ => Some 500
               end
           | SocketError _ => Some 500
           | SendDone _ => Some 500
           end))).
Proof.
  cbv zeta. split.
  - intros H events. rewrite auth_radius_missing by assumption. reflexivity.
  - intros H. split.
    + intros Hfail events. rewrite auth_radius_present by assumption. cbv zeta.
      cbn [response]. unfold authenticateWithRadius.
      destruct (start_not_sent _ _ _ Hfail) as (D & _ & m & Hm).
      rewrite promise_event_loop by (destruct D; assumption).
      rewrite Hm. reflexivity.
    + intros encoded He Hs. split.
      * intros events Hq. rewrite auth_radius_present by assumption. cbv zeta.
        cbn [response]. unfold authenticateWithRadius.
        rewrite (start_sent _ _ _ _ He Hs).
        destruct (quiet_times_out encoded events Hq) as [_ ->]. reflexivity.
      * intros pre now e rest Hpre Hnow Hne.
        rewrite auth_radius_present by assumption. cbv zeta.
        cbn [response]. unfold authenticateWithRadius.
        rewrite (start_sent _ _ _ _ He Hs).
        rewrite first_event_settles by assumption.
        destruct e as [m|m|[m|]]; [| | |discriminate Hne].
        -- cbn [dispatch waiting listeners].
           destruct (on_message_waiting m encoded) as [_ ->]. unfold settlement.
           destruct (decode m RADIUS_SECRET) as [r|msg]; [|reflexivity].
           destruct (String.eqb (Response.code r) "Access-Accept"); [|reflexivity].
           unfold respond. cbn [Result.success Result.filterId].
           destruct (strict_eq_str _ _); reflexivity.
        -- reflexivity.
        -- reflexivity.
Qed.

(** C7, as amended.  When the request went out and nothing but the callback
    of the successful send is taken up before the 10000 ms timer is due, the
    promise is fulfilled with [success: false] and the message
    "Authentication server timed out", the socket has been closed, and the
    endpoint answers 401 with that message.  Whatever the events are, the
    promise is no longer pending once an event is taken up at or after
    10000 ms, nor when the event loop has run out. *)
Theorem timeout_resolves env body random encoded events :
  truthy (Body.username body) && truthy (Body.password body) = true ->
  encode (request_packet (Body.username body) (Body.password body) random)
    RADIUS_SECRET = Ok encoded ->
  client_send RADIUS_PORT = Ok tt ->
  quiet events ->
  (exists a,
      auth_radius env body random events =
      {| response :=
           Some {| Http.status := 401;
                   Http.json :=
                     {| Http.success := false;
                        Http.message := "Authentication server timed out";
                        Http.filterId := JUndefined;
                        Http.validation := None |} |};
         attempt := Some a |} /\
      promise a = Fulfilled timed_out /\
      clientClosed a = true /\ socketCloses a = 1%nat) /\
  (forall any now e,
      TIMEOUT_MS <= now ->
      promise (deliver (any ++ [(now, e)])
                 (start (Body.username body) (Body.password body) random)) <> Pending) /\
  (forall any,
      promise (authenticateWithRadius (Body.username body) (Body.password body)
                 random any) <> Pending).
Proof.
  intros Hc He Hs Hq. split; [|split].
  - exists (authenticateWithRadius (Body.username body) (Body.password body) random events).
    rewrite auth_radius_present by assumption. cbv zeta.
    unfold authenticateWithRadius. rewrite (start_sent _ _ _ _ He Hs).
    destruct (quiet_times_out encoded events Hq) as [D Hp].
    rewrite Hp. destruct D. repeat split; assumption.
  - intros any now e Hnow. rewrite (start_sent _ _ _ _ He Hs).
    rewrite deliver_app, deliver_cons. cbn [deliver].
    destruct (deliver_phase any (waiting encoded)) as [[encoded' ->]|D].
    + left. eauto.
    + rewrite timer_due_waiting.
      replace (TIMEOUT_MS <=? now) with true by (symmetry; apply Z.leb_le; assumption).
      destruct (fire_timer_waiting encoded') as [D _].
      apply (dispatch_done e) in D. destruct D. assumption.
    + assert (D' : Done (if timer_due now (deliver any (waiting encoded))
                         then fire_timer (deliver any (waiting encoded))
                         else deliver any (waiting encoded))).
      { destruct (timer_due _ _); [rewrite fire_timer_done|]; assumption. }
      apply (dispatch_done e) in D'. destruct D'. assumption.
  - intros any. unfold authenticateWithRadius, event_loop.
    apply done_settled, fire_timer_phase, deliver_phase, start_phase.
Qed.

(** C8, as amended.  Every attempt creates one socket and closes it once: at
    any moment the socket is closed exactly when the promise is settled, and
    it is closed when the event loop has run out.  At most one buffer is
    handed to the socket: the encoded request when encoding succeeds and the
    port is valid, none otherwise. *)
Theorem one_socket_at_most_one_send username password random events :
  let a := authenticateWithRadius username password random events in
  (socketsOpened a = 1%nat /\ socketCloses a = 1%nat /\ clientClosed a = true /\
   promise a <> Pending) /\
  sent a =
    match encode (request_packet username password random) RADIUS_SECRET,
          client_send RADIUS_PORT with
    | Ok encoded, Ok _ => [encoded]
    | _, _ => []
    end /\
  (forall pre,
      let b := deliver pre (start username password random) in
      socketsOpened b = 1%nat /\
      (promise b = Pending -> clientClosed b = false /\ socketCloses b = 0%nat) /\
      (promise b <> Pending -> clientClosed b = true /\ socketCloses b = 1%nat)).
Proof.
  cbv zeta. split; [|split].
  - assert (D : Done (authenticateWithRadius username password random events)).
    { unfold authenticateWithRadius, event_loop.
      apply fire_timer_phase, deliver_phase, start_phase. }
    destruct D. repeat split; assumption.
  - unfold authenticateWithRadius. rewrite sent_event_loop. unfold start.
    destruct (encode _ _) as [encoded|m]; [|reflexivity].
    destruct (client_send RADIUS_PORT) as [[]|m]; reflexivity.
  - intros pre.
    destruct (deliver_phase pre (start username password random)
                (start_phase username password random)) as [[encoded ->]|D].
    + simpl. repeat split; congruence.
    + destruct D. repeat split; congruence.
Qed.

(** C10.  When [username] or [password] is falsy (missing, [null], [false],
    [0] or the empty string) the answer is 400 with [success: false] and
    "Username and password are required", and [authenticateWithRadius] is not
    called: no socket, no packet. *)
Theorem missing_credentials_rejected env body random events :
  truthy (Body.username body) = false \/ truthy (Body.password body) = false ->
  response (auth_radius env body random events) =
    Some {| Http.status := 400;
            Http.json :=
              {| Http.success := false;
                 Http.message := "Username and password are required";
                 Http.filterId := JUndefined;
                 Http.validation := None |} |} /\
  attempt (auth_radius env body random events) = None.
Proof.
  intros H. rewrite auth_radius_missing; [split; reflexivity|].
  destruct H as [-> | ->]; [reflexivity | apply andb_false_r].
Qed.

(** **** Where an outcome comes from *)

Lemma caused_cons now e rest p : caused rest p -> caused ((now, e) :: rest) p.
Proof.
  intros [H|(now' & e' & Hin & H)]; [left; assumption|].
  right. exists now', e'. split; [right; assumption | assumption].
Qed.

Lemma dispatch_waiting_caused now e encoded rest :
  now < TIMEOUT_MS -> send_succeeded e = false ->
  caused ((now, e) :: rest) (promise (dispatch e (waiting encoded))).
Proof.
  intros Hnow He. right. exists now, e.
  split; [left; reflexivity|]. split; [assumption|].
  destruct e as [m|m|[m|]]; [| | |discriminate He].
  - cbn [dispatch waiting listeners].
    destruct (on_message_waiting m encoded) as [_ ->]. unfold settlement.
    destruct (decode m RADIUS_SECRET) as [response|msg]; [|reflexivity].
    destruct (String.eqb _ _); reflexivity.
  - reflexivity.
  - reflexivity.
Qed.

Lemma deliver_waiting_caused encoded events :
  deliver events (waiting encoded) = waiting encoded \/
  (Done (deliver events (waiting encoded)) /\
   caused events (promise (deliver events (waiting encoded)))).
Proof.
  induction events as [|[now e] rest IH]; [left; reflexivity|].
  rewrite deliver_cons, timer_due_waiting.
  destruct (TIMEOUT_MS <=? now) eqn:Hdue.
  - right.
    destruct (fire_timer_waiting encoded) as [D Hp].
    assert (D' : Done (dispatch e (fire_timer (waiting encoded)))) by (apply dispatch_done, D).
    split.
    + apply settled_phase.
      * apply deliver_phase. right. assumption.
      * rewrite promise_deliver; destruct D'; assumption.
    + left. rewrite promise_deliver by (destruct D'; assumption).
      rewrite promise_dispatch by (destruct D; assumption). assumption.
  - apply Z.leb_gt in Hdue.
    destruct (dispatch_waiting e encoded) as [[_ ->]|[He D]].
    + destruct IH as [IH|[D IH]]; [left; assumption|].
      right. split; [assumption | apply caused_cons, IH].
    + right. split.
      * apply settled_phase.
        -- apply deliver_phase. right. assumption.
        -- rewrite promise_deliver; destruct D; assumption.
      * rewrite promise_deliver by (destruct D; assumption).
        apply dispatch_waiting_caused; assumption.
Qed.

Lemma event_loop_caused encoded events :
  caused events (promise (event_loop events (waiting encoded))).
Proof.
  unfold event_loop.
  destruct (deliver_waiting_caused encoded events) as [->|[D H]].
  - left. reflexivity.
  - rewrite fire_timer_done by assumption. assumption.
Qed.

Lemma authenticate_caused username password random events :
  (exists m,
      promise (authenticateWithRadius username password random events) =
      Rejected (String.append "Failed to create authentication request: " m)) \/
  caused events (promise (authenticateWithRadius username password random events)).
Proof.
  unfold authenticateWithRadius.
  destruct (encode (request_packet username password random) RADIUS_SECRET)
    as [encoded|m] eqn:He.
  - destruct (client_send RADIUS_PORT) as [[]|m] eqn:Hs.
    + right. rewrite (start_sent _ _ _ _ He Hs). apply event_loop_caused.
    + left.
      destruct (start_not_sent username password random) as (D & _ & msg & Hm).
      { intros encoded' _. congruence. }
      exists msg. rewrite promise_event_loop by (destruct D; assumption). assumption.
  - left.
    destruct (start_not_sent username password random) as (D & _ & msg & Hm).
    { intros encoded' He'. congruence. }
    exists msg. rewrite promise_event_loop by (destruct D; assumption). assumption.
Qed.

Lemma authenticate_settled username password random events :
  promise (authenticateWithRadius username password random events) <> Pending.
Proof.
  unfold authenticateWithRadius, event_loop.
  apply done_settled, fire_timer_phase, deliver_phase, start_phase.
Qed.

Lemma strict_eq_str_true v t : strict_eq_str v t = true -> v = JStr t.
Proof.
  destruct v as [| |b|q|u|]; simpl; try discriminate.
  intros H. apply String.eqb_eq in H. congruence.
Qed.

(** The answers [respond] can give once the promise is settled. *)
Lemma respond_settled env p :
  p <> Pending ->
  exists r,
    respond env p = Some r /\
    In (Http.status r) [200; 401; 403; 500] /\
    (Http.success (Http.json r) = true <-> Http.status r = 200) /\
    Http.message (Http.json r) <> "" /\
    (Http.status r = 200 ->
     exists result,
       p = Fulfilled result /\ Result.success result = true /\
       Result.filterId result = JStr ALLOWED_FILTER_ID /\
       Http.filterId (Http.json r) = JStr ALLOWED_FILTER_ID /\
       Http.validation (Http.json r) =
         Some ("success",
               env_or env "ACCESS_GRANTED_MESSAGE" "Access granted - Account verified")) /\
    (Http.status r <> 200 ->
     match Http.validation (Http.json r) with
     | Some (vstatus, vmessage) => vstatus <> "" /\ vmessage <> ""
     | None => True
     end).
Proof.
  intros Hp. destruct p as [|result|m]; [congruence| |].
  - unfold respond. destruct (Result.success result) eqn:Hs.
    + destruct (strict_eq_str (Result.filterId result) ALLOWED_FILTER_ID) eqn:Hf.
      * eexists. split; [reflexivity|]. cbn.
        repeat split; try tauto; try discriminate.
        intros _. exists result. apply strict_eq_str_true in Hf.
        repeat split; congruence.
      * eexists. split; [reflexivity|]. cbn.
        repeat split; try tauto; try discriminate; try congruence.
        all: try (apply env_or_nonempty; discriminate).
    + eexists. split; [reflexivity|]. cbn.
      repeat split; try tauto; try discriminate; try congruence.
      destruct (Result.message result) as [m|]; [|discriminate].
      destruct (String.eqb m "") eqn:E; [discriminate|]. apply String.eqb_neq, E.
  - eexists. split; [reflexivity|]. cbn.
    repeat split; try tauto; try discriminate; congruence.
Qed.

(** A grant goes back to an [Access-Accept] with the configured [Filter-Id],
    taken up before the timer was due. *)
Lemma granted_cause env body random events r :
  response (auth_radius env body random events) = Some r ->
  Http.status r = 200 ->
  truthy (Body.username body) && truthy (Body.password body) = true /\
  Http.filterId (Http.json r) = JStr ALLOWED_FILTER_ID /\
  exists now m resp,
    In (now, Message m) events /\ now < TIMEOUT_MS /\
    decode m RADIUS_SECRET = Ok resp /\
    Response.code resp = "Access-Accept" /\
    extract_filterId resp = JStr ALLOWED_FILTER_ID.
Proof.
  intros Hr Hs.
  destruct (truthy (Body.username body) && truthy (Body.password body)) eqn:Hc.
  2:{ rewrite auth_radius_missing in Hr by assumption. cbn in Hr.
      injection Hr as <-. discriminate Hs. }
  split; [reflexivity|].
  rewrite auth_radius_present in Hr by assumption. cbv zeta in Hr. cbn [response] in Hr.
  destruct (respond_settled env _
              (authenticate_settled (Body.username body) (Body.password body) random events))
    as (r' & Hr' & _ & _ & _ & H200 & _).
  rewrite Hr in Hr'. injection Hr' as <-.
  destruct (H200 Hs) as (result & Hp & Hsucc & Hfid & Hjson & _).
  split; [assumption|].
  destruct (authenticate_caused (Body.username body) (Body.password body) random events)
    as [[m Hm]|[Ht|(now & e & Hin & Hnow & He)]].
  - congruence.
  - rewrite Hp in Ht. injection Ht as ->. discriminate Hsucc.
  - destruct e as [m|m|[m|]]; try (rewrite Hp in He; discriminate He); [|destruct He].
    destruct (decode m RADIUS_SECRET) as [resp|msg] eqn:Hd;
      [|rewrite Hp in He; discriminate He].
    rewrite Hp in He. injection He as ->.
    destruct (String.eqb (Response.code resp) "Access-Accept") eqn:Hcode;
      [|discriminate Hsucc].
    exists now, m, resp. apply String.eqb_eq in Hcode.
    repeat split; assumption.
Qed.

Lemma endpoint_status env body random events r :
  response (auth_radius env body random events) = Some r ->
  Http.status r = 200 \/ Http.status r = 400 \/ Http.status r = 401 \/
  Http.status r = 403 \/ Http.status r = 500.
Proof.
  intros Hr.
  destruct (truthy (Body.username body) && truthy (Body.password body)) eqn:Hc.
  - rewrite auth_radius_present in Hr by assumption. cbv zeta in Hr. cbn [response] in Hr.
    destruct (respond_settled env _
                (authenticate_settled (Body.username body) (Body.password body)
                   random events))
      as (r' & Hr' & Hin & _).
    rewrite Hr in Hr'. injection Hr' as <-.
    destruct Hin as [H|[H|[H|[H|[]]]]]; symmetry in H; tauto.
  - rewrite auth_radius_missing in Hr by assumption. cbn in Hr.
    injection Hr as <-. cbn. tauto.
Qed.

(** What the page can rely on in an answer of the endpoint. *)
Lemma auth_answer_facts env body random events :
  exists r,
    response (auth_radius env body random events) = Some r /\
    (Http.status r = 200 \/ Http.status r = 400 \/ Http.status r = 401 \/
     Http.status r = 403 \/ Http.status r = 500) /\
    (Http.success (Http.json r) = true <-> Http.status r = 200) /\
    Http.message (Http.json r) <> "" /\
    (Http.status r = 200 ->
     Http.validation (Http.json r) =
       Some ("success",
             env_or env "ACCESS_GRANTED_MESSAGE" "Access granted - Account verified")) /\
    (Http.status r <> 200 ->
     match Http.validation (Http.json r) with
     | Some (vstatus, vmessage) => vstatus <> "" /\ vmessage <> ""
     | None => True
     end).
Proof.
  destruct (truthy (Body.username body) && truthy (Body.password body)) eqn:Hc.
  - rewrite auth_radius_present by assumption. cbv zeta. cbn [response].
    destruct (respond_settled env _
                (authenticate_settled (Body.username body) (Body.password body)
                   random events))
      as (r & Hr & Hin & Hs & Hm & H200 & Hn).
    exists r. repeat split; try assumption; try apply Hs.
    + destruct Hin as [H|[H|[H|[H|[]]]]]; symmetry in H; tauto.
    + intros H. destruct (H200 H) as (result & _ & _ & _ & _ & Hv). exact Hv.
  - rewrite auth_radius_missing by assumption. eexists. split; [reflexivity|].
    cbn. repeat split; try tauto; discriminate.
Qed.

Lemma or_else_nonempty value fallback :
  value <> "" -> Client.or_else value fallback = value.
Proof.
  intros H. unfold Client.or_else.
  destruct (String.eqb value "") eqn:E; [|reflexivity].
  apply String.eqb_eq in E. contradiction.
Qed.

(** The calls of one submission, by the answer of the endpoint. *)
Lemma splash_login_by_answer env random events g field_username field_password r :
  response (auth_radius env
              {| Body.username := JStr field_username;
                 Body.password := JStr field_password |} random events) = Some r ->
  splash_login env random events g field_username field_password =
  [Client.ShowLoading true; Client.HideMessages; Client.HideValidationStatus] ++
  if Http.status r =? 200 then
    [Client.ShowSuccessMessage "Authentication successful!";
     Client.ShowValidationStatus "success"
       (env_or env "ACCESS_GRANTED_MESSAGE" "Access granted - Account verified")] ++
    Client.grantNetworkAccess g
  else
    [Client.ShowErrorMessage (Http.message (Http.json r))] ++
    match Http.validation (Http.json r) with
    | Some (vstatus, vmessage) => [Client.ShowValidationStatus vstatus vmessage]
    | None => []
    end ++
    [Client.ShowLoading false].
Proof.
  intros Hr.
  destruct (auth_answer_facts env
              {| Body.username := JStr field_username;
                 Body.password := JStr field_password |} random events)
    as (r' & Hr' & Hst & Hs & Hm & H200 & Hn).
  rewrite Hr in Hr'. injection Hr' as <-.
  unfold splash_login, Client.submit, Client.performAuthentication, fetch_auth.
  cbn [Client.username Client.password]. rewrite Hr.
  destruct (Http.status r =? 200) eqn:E.
  - apply Z.eqb_eq in E. rewrite (H200 E), (proj2 Hs E), E. cbn [Client.ok Z.leb Z.compare andb].
    rewrite !or_else_nonempty
      by (discriminate || (apply env_or_nonempty; discriminate)).
    reflexivity.
  - apply Z.eqb_neq in E.
    assert (Hok : Client.ok (Http.status r) && Http.success (Http.json r) = false).
    { destruct Hst as [H|[H|[H|[H|H]]]]; [contradiction| | | |]; rewrite H; reflexivity. }
    rewrite Hok, (or_else_nonempty _ _ Hm).
    specialize (Hn E).
    destruct (Http.validation (Http.json r)) as [[vstatus vmessage]|].
    + destruct Hn as [Hv1 Hv2]. rewrite !or_else_nonempty by assumption.
      reflexivity.
    + reflexivity.
Qed.

(** **** Further properties of the server *)

(** X1.  The endpoint answers every request, with status 200, 400, 401, 403
    or 500; the body says [success: true] exactly when the status is 200, and
    its [message] is never empty. *)
Theorem endpoint_always_answers env body random events :
  exists r,
    response (auth_radius env body random events) = Some r /\
    In (Http.status r) [200; 400; 401; 403; 500] /\
    (Http.success (Http.json r) = true <-> Http.status r = 200) /\
    Http.message (Http.json r) <> "".
Proof.
  destruct (truthy (Body.username body) && truthy (Body.password body)) eqn:Hc.
  - rewrite auth_radius_present by assumption. cbv zeta. cbn [response].
    destruct (respond_settled env _
                (authenticate_settled (Body.username body) (Body.password body)
                   random events))
      as (r & Hr & Hin & Hs & Hm & _).
    exists r. repeat split; try assumption; try apply Hs.
    cbn in Hin |- *. tauto.
  - rewrite auth_radius_missing by assumption. eexists. split; [reflexivity|].
    cbn. repeat split; try tauto; discriminate.
Qed.

(** X2.  Access is granted only on evidence from the RADIUS exchange: a 200
    means that both credentials were present and that a datagram taken up
    before the 10000 ms timer was due decoded to an [Access-Accept] whose
    [Filter-Id] is the configured one, which the body repeats. *)
Theorem granted_only_on_accept env body random events r :
  response (auth_radius env body random events) = Some r ->
  Http.status r = 200 ->
  truthy (Body.username body) && truthy (Body.password body) = true /\
  Http.filterId (Http.json r) = JStr ALLOWED_FILTER_ID /\
  exists now m resp,
    In (now, Message m) events /\ now < TIMEOUT_MS /\
    decode m RADIUS_SECRET = Ok resp /\
    Response.code resp = "Access-Accept" /\
    extract_filterId resp = JStr ALLOWED_FILTER_ID.
Proof. apply granted_cause. Qed.

(** X3.  The request logger and the endpoint: every answer other than a
    grant is logged whatever time it took; a grant is logged only when it
    took more than 1000 ms. *)
Theorem failures_always_logged env body random events duration r :
  response (auth_radius env body random events) = Some r ->
  request_logged (Http.status r) duration =
  negb (Http.status r =? 200) || (1000 <? duration).
Proof.
  intros Hr.
  destruct (endpoint_status env body random events r Hr) as [H|[H|[H|[H|H]]]];
    rewrite H; reflexivity.
Qed.

(** X4.  The shared secret is never empty: when [RADIUS_SECRET] is unset or
    empty the server runs with ["testing123"], so the startup check for a
    missing secret never stops the process. *)
Theorem secret_never_missing :
  starts = true /\ RADIUS_SECRET <> "" /\
  (startup_env !! "RADIUS_SECRET" = None \/ startup_env !! "RADIUS_SECRET" = Some "" ->
   RADIUS_SECRET = "testing123").
Proof.
  assert (H : RADIUS_SECRET <> "") by (apply env_or_nonempty; discriminate).
  split; [|split].
  - unfold starts. apply negb_true_iff, String.eqb_neq, H.
  - exact H.
  - apply env_or_unset.
Qed.

(** X5.  For a value of [Math.random()], which lies in [0, 1), the identifier
    of the request is an integer from 0 to 255. *)
Theorem identifier_fits_byte username password random :
  (0 <= random)%Q -> (random < 1)%Q ->
  0 <= Packet.identifier (request_packet username password random) <= 255.
Proof.
  intros H0 H1. cbn [request_packet Packet.identifier]. unfold random_identifier.
  split.
  - change 0 with (Qfloor 0). apply Qfloor_resp_le.
    apply Qmult_le_0_compat; [assumption | discriminate].
  - assert (H : (inject_Z (Qfloor (random * 256)) < inject_Z 256)%Q).
    { apply Qle_lt_trans with (random * 256)%Q; [apply Qfloor_le|].
      change (inject_Z 256) with (1 * 256)%Q.
      apply Qmult_lt_compat_r; [reflexivity | assumption]. }
    rewrite <- Zlt_Qlt in H. lia.
Qed.

(** X6.  Every outcome has a cause.  The promise of an attempt is settled by
    one of: the failure to create the request, the timer, or an event taken
    up before the timer was due, namely a datagram (fulfilled or rejected by
    what decoding gives), a socket error, or the callback of a failed
    send. *)
Theorem outcome_has_cause username password random events :
  (exists m,
      promise (authenticateWithRadius username password random events) =
      Rejected (String.append "Failed to create authentication request: " m)) \/
  caused events (promise (authenticateWithRadius username password random events)).
Proof. apply authenticate_caused. Qed.

(** **** The splash page against the server *)

(** X7.  The browser is sent to the grant URL only when access was granted:
    a redirect in a submission means that [base_grant_url] is not empty, that
    the target is the grant URL, that the endpoint answered 200, and that
    this answer goes back to an [Access-Accept] with the configured
    [Filter-Id]. *)
Theorem redirect_only_when_granted
    env random events g field_username field_password href :
  In (Client.Redirect href)
     (splash_login env random events g field_username field_password) ->
  href = Client.grant_url g /\ Client.base_grant_url g <> "" /\
  exists r,
    response (auth_radius env
                {| Body.username := JStr field_username;
                   Body.password := JStr field_password |} random events) = Some r /\
    Http.status r = 200 /\
    exists now m resp,
      In (now, Message m) events /\ now < TIMEOUT_MS /\
      decode m RADIUS_SECRET = Ok resp /\
      Response.code resp = "Access-Accept" /\
      extract_filterId resp = JStr ALLOWED_FILTER_ID.
Proof.
  intros Hin.
  destruct (auth_answer_facts env
              {| Body.username := JStr field_username;
                 Body.password := JStr field_password |} random events)
    as (r & Hr & _).
  rewrite (splash_login_by_answer _ _ _ _ _ _ r Hr) in Hin.
  destruct (Http.status r =? 200) eqn:E.
  - apply Z.eqb_eq in E.
    assert (Hg : In (Client.Redirect href) (Client.grantNetworkAccess g)).
    { cbn in Hin. destruct Hin as [H|[H|[H|[H|[H|H]]]]]; try discriminate H. exact H. }
    unfold Client.grantNetworkAccess in Hg.
    destruct (String.eqb (Client.base_grant_url g) "") eqn:Hb.
    + cbn in Hg. destruct Hg as [H|[H|[]]]; discriminate H.
    + destruct Hg as [H|[]]. injection H as <-.
      split; [reflexivity|]. split; [apply String.eqb_neq, Hb|].
      exists r. split; [assumption|]. split; [assumption|].
      apply (granted_cause _ _ _ _ _ Hr E).
  - exfalso. cbn in Hin.
    destruct Hin as [H|[H|[H|[H|H]]]]; try discriminate H.
    destruct (Http.validation (Http.json r)) as [[vstatus vmessage]|]; cbn in H.
    + destruct H as [H|[H|[]]]; discriminate H.
    + destruct H as [H|[]]; discriminate H.
Qed.

(** X8.  What the user sees follows the answer of the endpoint.  On a 200:
    the success message, the grant message of the server, then
    [grantNetworkAccess].  On any other answer: the [message] of the server
    as the error text, its [validation] when there is one, and the loading
    indicator is switched off; the fallback texts of the script are not
    used. *)
Theorem login_follows_answer env random events g field_username field_password r :
  response (auth_radius env
              {| Body.username := JStr field_username;
                 Body.password := JStr field_password |} random events) = Some r ->
  splash_login env random events g field_username field_password =
  [Client.ShowLoading true; Client.HideMessages; Client.HideValidationStatus] ++
  if Http.status r =? 200 then
    [Client.ShowSuccessMessage "Authentication successful!";
     Client.ShowValidationStatus "success"
       (env_or env "ACCESS_GRANTED_MESSAGE" "Access granted - Account verified")] ++
    Client.grantNetworkAccess g
  else
    [Client.ShowErrorMessage (Http.message (Http.json r))] ++
    match Http.validation (Http.json r) with
    | Some (vstatus, vmessage) => [Client.ShowValidationStatus vstatus vmessage]
    | None => []
    end ++
    [Client.ShowLoading false].
Proof. apply splash_login_by_answer. Qed.

(** X9.  A form submitted with an empty user name or an empty password never
    reaches the RADIUS server: no attempt is made, and the page shows
    "Username and password are required". *)
Theorem empty_field_never_reaches_radius
    env random events g field_username field_password :
  field_username = "" \/ field_password = "" ->
  attempt (auth_radius env
             {| Body.username := JStr field_username;
                Body.password := JStr field_password |} random events) = None /\
  splash_login env random events g field_username field_password =
  [Client.ShowLoading true; Client.HideMessages; Client.HideValidationStatus;
   Client.ShowErrorMessage "Username and password are required";
   Client.ShowLoading false].
Proof.
  intros H.
  assert (Hm : truthy (JStr field_username) && truthy (JStr field_password) = false).
  { destruct H as [-> | ->]; [reflexivity | apply andb_false_r]. }
  pose proof (auth_radius_missing env
                {| Body.username := JStr field_username;
                   Body.password := JStr field_password |} random events Hm) as Ha.
  split; [rewrite Ha; reflexivity|].
  rewrite (splash_login_by_answer _ _ _ _ _ _ _ (f_equal response Ha)). reflexivity.
Qed.

(** X16.  When [RADIUS_PORT] does not parse to a port from 1 to 65535 (it is
    [NaN], an infinity, or an integer outside that range), every request with
    credentials is answered 500: the socket is created and closed, and
    nothing is sent. *)
Theorem bad_port_fails_every_attempt env body random events :
  (forall p, RADIUS_PORT = Integer p -> p < 1 \/ 65535 < p) ->
  truthy (Body.username body) && truthy (Body.password body) = true ->
  Http.status <$> response (auth_radius env body random events) = Some 500 /\
  exists a,
    attempt (auth_radius env body random events) = Some a /\
    sent a = [] /\ socketsOpened a = 1%nat /\ socketCloses a = 1%nat.
Proof.
  intros Hport Hc.
  assert (Hs : client_send RADIUS_PORT <> Ok tt).
  { unfold client_send. destruct RADIUS_PORT as [|negative|p]; try discriminate.
    replace ((1 <=? p) && (p <=? 65535)) with false; [discriminate|].
    symmetry. apply andb_false_iff.
    destruct (Hport p eq_refl); [left; apply Z.leb_gt | right; apply Z.leb_gt];
      assumption. }
  destruct (start_not_sent (Body.username body) (Body.password body) random)
    as (D & Hsent & m & Hm).
  { intros encoded _. exact Hs. }
  rewrite auth_radius_present by assumption. cbv zeta. cbn [response attempt].
  unfold authenticateWithRadius. split.
  - rewrite promise_event_loop by (destruct D; assumption). rewrite Hm. reflexivity.
  - eexists. split; [reflexivity|].
    rewrite sent_event_loop. split; [assumption|].
    assert (D' : Done (event_loop events
                         (start (Body.username body) (Body.password body) random))).
    { unfold event_loop. apply fire_timer_phase, deliver_phase. right. assumption. }
    destruct D'. split; assumption.
Qed.

End Server.

(** ** The model run on concrete exchanges *)

Local Abbreviation run :=
  (auth_radius (Radius.encode Scenario.request_authenticator) Radius.decode
     Scenario.env).
Local Abbreviation exchange :=
  (authenticateWithRadius (Radius.encode Scenario.request_authenticator)
     Radius.decode Scenario.env).

Example md5_of_abc :
  Md5.md5 (bytes_of_string "abc") =
  [144; 1; 80; 152; 60; 210; 79; 176; 214; 150; 63; 125; 40; 225; 127; 114].
Proof. vm_compute. reflexivity. Qed.

Example md5_of_two_blocks :
  Md5.md5 (repeat 97 119) =
  [138; 123; 208; 115; 46; 214; 162; 140; 231; 95; 109; 171; 201; 14; 22; 19].
Proof. vm_compute. reflexivity. Qed.

Example scenario_request :
  Radius.encode Scenario.request_authenticator
    (request_packet (JStr "alice") (JStr "correct") Scenario.random)
    (RADIUS_SECRET Scenario.env) = Ok Scenario.request.
Proof. vm_compute. reflexivity. Qed.

Example scenario_port : client_send (RADIUS_PORT Scenario.env) = Ok tt.
Proof. reflexivity. Qed.

Lemma idle_send_callback now :
  now < TIMEOUT_MS -> idle [(now, SendDone None)].
Proof.
  intros H now' e [E|[]]. injection E as <- <-. split; [assumption|reflexivity].
Qed.

Lemma quiet_late now e rest :
  TIMEOUT_MS <= now -> quiet rest -> quiet ((now, e) :: rest).
Proof.
  intros H Hq now' e' [E|Hin] Hlt.
  - injection E as <- <-. lia.
  - apply (Hq now' e' Hin Hlt).
Qed.

Lemma quiet_nil : quiet [].
Proof. intros now e []. Qed.

(** The scenarios of the spec: granted, denied, rejected, timed out. *)
Example scenario_granted :
  response (run Scenario.env Scenario.alice Scenario.random
              [(3, SendDone None);
               (40, Message (Scenario.reply 2 9 (Scenario.filter_id "StaffPolicy")))]) =
  Some {| Http.status := 200;
          Http.json :=
            {| Http.success := true;
               Http.message := "Authentication successful";
               Http.filterId := JStr "StaffPolicy";
               Http.validation := Some ("success", "Access granted - Account verified") |} |}.
Proof. vm_compute. reflexivity. Qed.

Example scenario_denied :
  Http.status <$>
    response (run Scenario.env Scenario.alice Scenario.random
                [(3, SendDone None);
                 (40, Message (Scenario.reply 2 9 (Scenario.filter_id "GuestPolicy")))]) =
  Some 403.
Proof. vm_compute. reflexivity. Qed.

Example scenario_rejected :
  Http.status <$>
    response (run Scenario.env Scenario.alice Scenario.random
                [(3, SendDone None); (40, Message (Scenario.reply 3 9 []))]) =
  Some 401.
Proof. vm_compute. reflexivity. Qed.

(** C1 at a concrete exchange: the request carries identifier 9, the first
    datagram identifier 7. *)
Lemma datagram_settles_whatever_identifier_witness :
  promise (exchange (JStr "alice") (JStr "correct") Scenario.random
             ([(3, SendDone None)] ++ (40, Message (Scenario.forged 7)) :: [])) =
  settlement (Radius.decode (Scenario.forged 7) (RADIUS_SECRET Scenario.env)).
Proof.
  apply (datagram_settles_whatever_identifier _ _ _ _ _ _ Scenario.request).
  - exact scenario_request.
  - exact scenario_port.
  - apply idle_send_callback. reflexivity.
  - reflexivity.
Defined.

(** C1 as stated fails: the outstanding request has identifier 9, the
    datagram has identifier 7, and the attempt is fulfilled as accepted and
    answered 200. *)
Lemma identifier_mismatch_accepted :
  map Radius.packet_identifier
    (sent (exchange (JStr "alice") (JStr "correct") Scenario.random
             [(40, Message (Scenario.forged 7))])) = [Some 9] /\
  Radius.packet_identifier (Scenario.forged 7) = Some 7 /\
  promise (exchange (JStr "alice") (JStr "correct") Scenario.random
             [(40, Message (Scenario.forged 7))]) =
    Fulfilled {| Result.success := true; Result.filterId := JStr "StaffPolicy";
                 Result.message := None |} /\
  Http.status <$>
    response (run Scenario.env Scenario.alice Scenario.random
                [(40, Message (Scenario.forged 7))]) = Some 200.
Proof. vm_compute. repeat split; reflexivity. Qed.

(** C2 as stated fails: the datagram answers the request (identifier 9) but
    its authenticator field is not the MD5 over the response, the request
    authenticator and the secret; the attempt is nevertheless fulfilled as
    accepted, not failed. *)
Lemma authenticator_mismatch_accepted :
  Radius.packet_authenticator Scenario.request = Scenario.request_authenticator /\
  Radius.response_authenticator (Scenario.forged 9)
    (Radius.packet_authenticator Scenario.request) (RADIUS_SECRET Scenario.env)
  <> Radius.packet_authenticator (Scenario.forged 9) /\
  promise (exchange (JStr "alice") (JStr "correct") Scenario.random
             [(40, Message (Scenario.forged 9))]) =
    Fulfilled {| Result.success := true; Result.filterId := JStr "StaffPolicy";
                 Result.message := None |} /\
  Http.status <$>
    response (run Scenario.env Scenario.alice Scenario.random
                [(40, Message (Scenario.forged 9))]) = Some 200.
Proof.
  split; [reflexivity|]. split.
  - intros H. vm_compute in H. discriminate H.
  - vm_compute. split; reflexivity.
Qed.

(** C3 at a concrete exchange: the response has been processed. *)
Lemma resolves_at_most_once_witness :
  let a :=
    deliver Radius.decode Scenario.env
      [(40, Message (Scenario.reply 2 9 (Scenario.filter_id "StaffPolicy")))]
      (start (Radius.encode Scenario.request_authenticator) Scenario.env
         (JStr "alice") (JStr "correct") Scenario.random) in
  on_timeout a = a /\
  forall later, promise (event_loop Radius.decode Scenario.env later a) = promise a.
Proof.
  cbv zeta.
  destruct (resolves_at_most_once (Radius.encode Scenario.request_authenticator)
              Radius.decode Scenario.env (JStr "alice") (JStr "correct") Scenario.random
              [(40, Message (Scenario.reply 2 9 (Scenario.filter_id "StaffPolicy")))])
    as (_ & [Ht _] & _ & Hl).
  - vm_compute. discriminate.
  - split; [exact Ht | intros later; apply Hl].
Defined.

(** C4 at a concrete exchange: [Filter-Id] is the default ["StaffPolicy"]. *)
Lemma filter_id_decides_witness :
  respond Scenario.env Scenario.env
    (promise (on_message Radius.decode Scenario.env
                (Scenario.reply 2 9 (Scenario.filter_id "StaffPolicy"))
                (waiting Scenario.request))) =
  Some {| Http.status := 200;
          Http.json :=
            {| Http.success := true;
               Http.message := "Authentication successful";
               Http.filterId := JStr "StaffPolicy";
               Http.validation := Some ("success", "Access granted - Account verified") |} |}.
Proof.
  assert (Hd : Radius.decode (Scenario.reply 2 9 (Scenario.filter_id "StaffPolicy"))
                 (RADIUS_SECRET Scenario.env) =
               Ok {| Response.code := "Access-Accept";
                     Response.attributes :=
                       Some {[ "Filter-Id" := JStr "StaffPolicy" ]} |})
    by (vm_compute; reflexivity).
  assert (Hv : ({[ "Filter-Id" := JStr "StaffPolicy" ]} : gmap string JsValue)
                 !! "Filter-Id" = Some (JStr "StaffPolicy"))
    by (vm_compute; reflexivity).
  exact (proj1 (filter_id_decides Radius.decode Scenario.env Scenario.env
                  Scenario.request _ _ _ _ Hd eq_refl eq_refl Hv) eq_refl).
Defined.

(** C5 at a concrete exchange: an [Access-Accept] with no attribute. *)
Lemma missing_filter_id_denied_witness :
  Http.status <$>
    respond Scenario.env Scenario.env
      (promise (on_message Radius.decode Scenario.env (Scenario.reply 2 9 [])
                  (waiting Scenario.request))) = Some 403.
Proof.
  assert (Hd : Radius.decode (Scenario.reply 2 9 []) (RADIUS_SECRET Scenario.env) =
               Ok {| Response.code := "Access-Accept"; Response.attributes := Some ∅ |})
    by (vm_compute; reflexivity).
  destruct (missing_filter_id_denied Radius.decode Scenario.env Scenario.env
              Scenario.request _ _ Hd eq_refl) as [_ ->].
  - intros attrs E. injection E as <-. reflexivity.
  - reflexivity.
Defined.

(** C6 as stated fails on the two outcomes that reject the promise: a
    datagram that cannot be decoded and a failed send are answered 500, not
    401. *)
Lemma decode_and_transport_errors_are_500 :
  promise (exchange (JStr "alice") (JStr "correct") Scenario.random
             [(40, Message [2; 9; 0])]) =
    Rejected "Failed to process authentication response: MalformedPacket" /\
  Http.status <$>
    response (run Scenario.env Scenario.alice Scenario.random
                [(40, Message [2; 9; 0])]) = Some 500 /\
  promise (exchange (JStr "alice") (JStr "correct") Scenario.random
             [(2, SendDone (Some "send ENETUNREACH"))]) =
    Rejected "Failed to send authentication request: send ENETUNREACH" /\
  Http.status <$>
    response (run Scenario.env Scenario.alice Scenario.random
                [(2, SendDone (Some "send ENETUNREACH"))]) = Some 500.
Proof. vm_compute. repeat split; reflexivity. Qed.

(** C6 at a concrete exchange: an [Access-Reject] after the send callback. *)
Lemma http_status_by_exit_witness :
  Http.status <$>
    response (run Scenario.env Scenario.alice Scenario.random
                ([(3, SendDone None)] ++ (40, Message (Scenario.reply 3 9 [])) :: [])) =
  Some 401.
Proof.
  destruct (http_status_by_exit (Radius.encode Scenario.request_authenticator)
              Radius.decode Scenario.env Scenario.env Scenario.alice Scenario.random)
    as [_ H].
  destruct (H eq_refl) as [_ H'].
  destruct (H' Scenario.request scenario_request scenario_port) as [_ H''].
  rewrite (H'' [(3, SendDone None)] 40 (Message (Scenario.reply 3 9 [])) []
             (idle_send_callback 3 eq_refl) eq_refl eq_refl).
  vm_compute. reflexivity.
Defined.

(** C7 at a concrete exchange: the send callback, then a response that comes
    two seconds too late. *)
Lemma timeout_resolves_witness :
  response (run Scenario.env Scenario.alice Scenario.random
              [(3, SendDone None);
               (12000, Message (Scenario.reply 2 9 (Scenario.filter_id "StaffPolicy")))]) =
  Some {| Http.status := 401;
          Http.json :=
            {| Http.success := false;
               Http.message := "Authentication server timed out";
               Http.filterId := JUndefined;
               Http.validation := None |} |}.
Proof.
  destruct (timeout_resolves (Radius.encode Scenario.request_authenticator)
              Radius.decode Scenario.env Scenario.env Scenario.alice Scenario.random
              Scenario.request
              [(3, SendDone None);
               (12000, Message (Scenario.reply 2 9 (Scenario.filter_id "StaffPolicy")))]
              eq_refl scenario_request scenario_port)
    as [(a & -> & _) _].
  - intros now e [E|[E|[]]] Hlt; injection E as <- <-; [reflexivity|].
    exfalso. revert Hlt. vm_compute. congruence.
  - reflexivity.
Defined.

(** C7 as stated fails: the only datagram within the ten seconds is not a
    valid response, so no valid response arrives, and the attempt does not
    time out: the promise is rejected and the answer is 500. *)
Lemma invalid_response_preempts_timeout :
  Radius.decode [2; 9; 0] (RADIUS_SECRET Scenario.env) = Throw "MalformedPacket" /\
  promise (exchange (JStr "alice") (JStr "correct") Scenario.random
             [(3, SendDone None); (1000, Message [2; 9; 0])]) =
    Rejected "Failed to process authentication response: MalformedPacket" /\
  response (run Scenario.env Scenario.alice Scenario.random
              [(3, SendDone None); (1000, Message [2; 9; 0])]) =
    Some {| Http.status := 500;
            Http.json :=
              {| Http.success := false;
                 Http.message := "Server error during authentication";
                 Http.filterId := JUndefined;
                 Http.validation := None |} |}.
Proof. vm_compute. repeat split; reflexivity. Qed.

(** C8 as stated fails: a user name of 254 bytes cannot be encoded; the
    socket is created and closed, and nothing is sent. *)
Lemma encode_failure_sends_nothing :
  let a := exchange (JStr Scenario.long_name) (JStr "correct") Scenario.random [] in
  Radius.encode Scenario.request_authenticator
    (request_packet (JStr Scenario.long_name) (JStr "correct") Scenario.random)
    (RADIUS_SECRET Scenario.env) = Throw "EncodeError" /\
  sent a = [] /\
  socketsOpened a = 1%nat /\ socketCloses a = 1%nat /\
  promise a = Rejected "Failed to create authentication request: EncodeError".
Proof. vm_compute. repeat split; reflexivity. Qed.


(** The defaults of the constants that are read at startup. *)
Lemma configuration_defaults :
  RADIUS_PORT Scenario.env = Integer 1812 /\
  ALLOWED_FILTER_ID Scenario.env = "StaffPolicy" /\
  RADIUS_SECRET Scenario.env = "testing123" /\
  starts Scenario.env = true.
Proof. repeat split; reflexivity. Qed.

(** C10 at a concrete request: the password is the empty string. *)
Lemma missing_credentials_rejected_witness :
  attempt (run Scenario.env
             {| Body.username := JStr "alice"; Body.password := JStr "" |}
             Scenario.random []) = None.
Proof.
  apply (missing_credentials_rejected (Radius.encode Scenario.request_authenticator)
           Radius.decode Scenario.env Scenario.env
           {| Body.username := JStr "alice"; Body.password := JStr "" |}
           Scenario.random []).
  right. reflexivity.
Defined.

(** ** The splash page script: properties *)

Lemma append_nil_r s : String.append s "" = s.
Proof.
  induction s as [|c s IH]; [reflexivity|].
  change (String c (String.append s "") = String c s). rewrite IH. reflexivity.
Qed.

Lemma append_assoc s1 s2 s3 :
  String.append (String.append s1 s2) s3 = String.append s1 (String.append s2 s3).
Proof.
  induction s1 as [|c s1 IH]; [reflexivity|].
  change (String c (String.append (String.append s1 s2) s3) =
          String c (String.append s1 (String.append s2 s3))).
  rewrite IH. reflexivity.
Qed.

Lemma length_append s1 s2 :
  String.length (String.append s1 s2) = (String.length s1 + String.length s2)%nat.
Proof.
  induction s1 as [|c s1 IH]; [reflexivity|].
  change (S (String.length (String.append s1 s2)) =
          S (String.length s1 + String.length s2)).
  rewrite IH. reflexivity.
Qed.

Lemma substring_after pre : forall n suf,
  substring (String.length pre) n (String.append pre suf) = substring 0 n suf.
Proof. induction pre as [|c pre IH]; intros n suf; [reflexivity | apply IH]. Qed.

(** Induction two code units at a time. *)
Lemma pairs_ind (P : string -> Prop) :
  P "" -> (forall a, P (String a "")) ->
  (forall a b r, P r -> P (String a (String b r))) ->
  forall s, P s.
Proof.
  intros H0 H1 H2 s.
  assert (H : P s /\ forall c, P (String c s)).
  { induction s as [|d s [IHs IHc]]; [split; auto|].
    split; [apply IHc|]. intros c. apply H2, IHs. }
  apply H.
Qed.

Lemma concat_pairs_cons a b c r :
  String.concat ":" (Client.pairs (String a (String b (String c r)))) =
  String a (String b (String ":" (String.concat ":" (Client.pairs (String c r))))).
Proof. destruct r as [|d r]; reflexivity. Qed.

(** The loop, started anywhere in the string, appends the remaining pairs
    joined by colons. *)
Lemma format_mac_loop_pairs : forall rounds suf pre formattedMac,
  (String.length suf <= rounds)%nat ->
  Client.format_mac_loop rounds (String.length pre) (String.append pre suf) formattedMac =
  String.append formattedMac (String.concat ":" (Client.pairs suf)).
Proof.
  induction rounds as [|rounds IH]; intros suf pre acc Hle.
  - destruct suf; [|simpl in Hle; lia]. simpl. symmetry. apply append_nil_r.
  - cbn [Client.format_mac_loop]. rewrite length_append, substring_after.
    destruct suf as [|a [|b [|c r]]].
    + replace (String.length pre <? String.length pre + String.length "")%nat with false
        by (symmetry; apply Nat.ltb_ge; simpl; lia).
      simpl. symmetry. apply append_nil_r.
    + replace (String.length pre <? String.length pre + String.length (String a ""))%nat
        with true by (symmetry; apply Nat.ltb_lt; simpl; lia).
      replace (Z.of_nat (String.length pre) <?
               Z.of_nat (String.length pre + String.length (String a "")) - 2)
        with false by (symmetry; apply Z.ltb_ge; simpl; lia).
      cbn [substring Client.pairs String.concat]. rewrite append_nil_r.
      destruct rounds as [|rounds']; [reflexivity|].
      cbn [Client.format_mac_loop]. rewrite length_append.
      replace (String.length pre + 2 <? String.length pre + String.length (String a ""))%nat
        with false by (symmetry; apply Nat.ltb_ge; simpl; lia).
      reflexivity.
    + replace (String.length pre <?
               String.length pre + String.length (String a (String b "")))%nat
        with true by (symmetry; apply Nat.ltb_lt; simpl; lia).
      replace (Z.of_nat (String.length pre) <?
               Z.of_nat (String.length pre + String.length (String a (String b ""))) - 2)
        with false by (symmetry; apply Z.ltb_ge; simpl; lia).
      cbn [substring Client.pairs String.concat]. rewrite append_nil_r.
      destruct rounds as [|rounds']; [reflexivity|].
      cbn [Client.format_mac_loop]. rewrite length_append.
      replace (String.length pre + 2 <?
               String.length pre + String.length (String a (String b "")))%nat
        with false by (symmetry; apply Nat.ltb_ge; simpl; lia).
      reflexivity.
    + replace (String.length pre <?
               String.length pre + String.length (String a (String b (String c r))))%nat
        with true by (symmetry; apply Nat.ltb_lt; simpl; lia).
      replace (Z.of_nat (String.length pre) <?
               Z.of_nat (String.length pre +
                         String.length (String a (String b (String c r)))) - 2)
        with true by (symmetry; apply Z.ltb_lt; simpl; lia).
      cbn [substring].
      replace (String.append pre (String a (String b (String c r))))
        with (String.append (String.append pre (String a (String b ""))) (String c r))
        by (rewrite append_assoc; reflexivity).
      replace (String.length pre + 2)%nat
        with (String.length (String.append pre (String a (String b ""))))
        by (rewrite length_append; reflexivity).
      rewrite IH by (simpl in Hle |- *; lia).
      rewrite concat_pairs_cons, append_assoc. reflexivity.
Qed.

Lemma format_mac_pairs s : Client.format_mac s = String.concat ":" (Client.pairs s).
Proof.
  unfold Client.format_mac.
  apply (format_mac_loop_pairs (String.length s) s "" "" (le_n _)).
Qed.

Lemma strip_colons_pairs s :
  Client.strip_colons (String.concat ":" (Client.pairs s)) = Client.strip_colons s.
Proof.
  induction s as [| a | a b r IH] using pairs_ind; [reflexivity | reflexivity |].
  destruct r as [|c r]; [reflexivity|].
  rewrite concat_pairs_cons. cbn [Client.strip_colons Ascii.eqb Bool.eqb].
  rewrite IH. reflexivity.
Qed.

(** X10.  The loop that reformats [client_mac] cuts the string into pairs of
    code units (the last one single when the length is odd) and joins them
    with colons. *)
Theorem mac_joined_pairs s :
  Client.format_mac s = String.concat ":" (Client.pairs s).
Proof. apply format_mac_pairs. Qed.

(** X11.  Fixing the MAC address only ever adds colons: with the colons
    removed, the result and the parameter are the same string. *)
Theorem fix_mac_keeps_characters s :
  Client.strip_colons (Client.fix_mac s) = Client.strip_colons s.
Proof.
  unfold Client.fix_mac.
  destruct (String.eqb s ""); [reflexivity|].
  destruct (Client.includes_colon s); [reflexivity|]. cbn [negb].
  rewrite format_mac_pairs. apply strip_colons_pairs.
Qed.

(** X12.  Fixing the MAC address twice is the same as fixing it once: an
    empty value, a value that has a colon and a value of one or two code
    units stay as they are, and a longer one has colons afterwards. *)
Theorem fix_mac_idempotent s :
  Client.fix_mac (Client.fix_mac s) = Client.fix_mac s.
Proof.
  assert (Hcolon : forall t, Client.includes_colon t = true -> Client.fix_mac t = t).
  { intros t Ht. unfold Client.fix_mac. rewrite Ht.
    destruct (String.eqb t ""); reflexivity. }
  destruct (String.eqb s "") eqn:He.
  - apply String.eqb_eq in He. subst. reflexivity.
  - destruct (Client.includes_colon s) eqn:Hc.
    + rewrite (Hcolon s Hc). apply Hcolon, Hc.
    + assert (Hf : Client.fix_mac s = String.concat ":" (Client.pairs s)).
      { unfold Client.fix_mac. rewrite He, Hc. apply format_mac_pairs. }
      destruct s as [|a [|b [|c r]]].
      * discriminate He.
      * rewrite Hf. exact Hf.
      * rewrite Hf. exact Hf.
      * rewrite Hf. apply Hcolon. rewrite concat_pairs_cons.
        cbn [Client.includes_colon].
        destruct (Ascii.eqb a ":"), (Ascii.eqb b ":"); reflexivity.
Qed.

Lemma unescape_unit c r :
  Client.unescape (String.append (Client.encode_unit c) r) =
  String c <$> Client.unescape r.
Proof. destruct c as [[] [] [] [] [] [] [] []]; reflexivity. Qed.

Lemma unescape_encode s : Client.unescape (Client.encodeURIComponent s) = Some s.
Proof.
  induction s as [|c s IH]; [reflexivity|].
  cbn [Client.encodeURIComponent]. rewrite unescape_unit, IH. reflexivity.
Qed.

Lemma list_ascii_append s1 s2 :
  list_ascii_of_string (String.append s1 s2) =
  list_ascii_of_string s1 ++ list_ascii_of_string s2.
Proof.
  induction s1 as [|c s1 IH]; [reflexivity|].
  change (c :: list_ascii_of_string (String.append s1 s2) =
          c :: (list_ascii_of_string s1 ++ list_ascii_of_string s2)).
  rewrite IH. reflexivity.
Qed.

Lemma encode_unit_safe c :
  forallb (fun d => Client.unreserved d || Ascii.eqb d "%")
    (list_ascii_of_string (Client.encode_unit c)) = true.
Proof. destruct c as [[] [] [] [] [] [] [] []]; reflexivity. Qed.

Lemma encode_safe s :
  forallb (fun d => Client.unreserved d || Ascii.eqb d "%")
    (list_ascii_of_string (Client.encodeURIComponent s)) = true.
Proof.
  induction s as [|c s IH]; [reflexivity|].
  cbn [Client.encodeURIComponent].
  rewrite list_ascii_append, forallb_app, encode_unit_safe, IH. reflexivity.
Qed.

(** X13.  [encodeURIComponent] loses nothing: reading the escapes back gives
    the string, two different strings are never encoded alike, and so two
    pages with the same [base_grant_url] and different continue URLs are sent
    to different grant URLs. *)
Theorem encodeURIComponent_round_trip :
  (forall s, Client.unescape (Client.encodeURIComponent s) = Some s) /\
  (forall s t, Client.encodeURIComponent s = Client.encodeURIComponent t -> s = t) /\
  (forall g g',
      Client.base_grant_url g = Client.base_grant_url g' ->
      Client.grant_url g = Client.grant_url g' ->
      Client.user_continue_url g = Client.user_continue_url g').
Proof.
  assert (Hinj : forall s t,
             Client.encodeURIComponent s = Client.encodeURIComponent t -> s = t).
  { intros s t H. apply (f_equal Client.unescape) in H.
    rewrite !unescape_encode in H. congruence. }
  split; [apply unescape_encode|]. split; [exact Hinj|].
  intros g g' Hb H. unfold Client.grant_url in H. rewrite Hb in H.
  apply append_inj_l, append_inj_l in H. apply Hinj, H.
Qed.

(** X14.  The grant URL is [base_grant_url], then [?continue_url=], then a
    value made of letters, digits, [- _ . ! ~ * ' ( )] and [%] only: whatever
    the continue URL holds, it puts no [&], [=], [#], [?], [/] or space into
    the grant URL. *)
Theorem continue_url_is_escaped g :
  exists value,
    Client.grant_url g =
      String.append (Client.base_grant_url g) (String.append "?continue_url=" value) /\
    Client.unescape value = Some (Client.user_continue_url g) /\
    forall c, In c (list_ascii_of_string value) ->
      (Client.unreserved c = true \/ c = "%"%char) /\
      ~ In c (list_ascii_of_string "&=#?/ ").
Proof.
  exists (Client.encodeURIComponent (Client.user_continue_url g)).
  split; [reflexivity|]. split; [apply unescape_encode|].
  intros c Hin.
  pose proof (encode_safe (Client.user_continue_url g)) as H.
  rewrite forallb_forall in H. specialize (H c Hin).
  apply orb_true_iff in H.
  assert (Hs : Client.unreserved c = true \/ c = "%"%char).
  { destruct H as [H|H]; [left; assumption | right; apply Ascii.eqb_eq, H]. }
  split; [assumption|].
  intros Hbad. cbn in Hbad.
  destruct Hbad as [<-|[<-|[<-|[<-|[<-|[<-|[]]]]]]];
    destruct Hs as [Hs|Hs]; discriminate Hs.
Qed.

Lemma no_redirect_without_base g :
  Client.base_grant_url g = "" ->
  forall href, ~ In (Client.Redirect href) (Client.grantNetworkAccess g).
Proof.
  intros Hb href. unfold Client.grantNetworkAccess. rewrite Hb. cbn.
  intros [H|[H|[]]]; discriminate H.
Qed.

(** X15.  A page opened without [base_grant_url] (the parameter is missing
    or empty) shows "This page must be accessed via Meraki splash page
    redirect." and never redirects, whatever is submitted and whatever the
    server answers. *)
Theorem page_without_grant_url_never_redirects urlParams :
  Client.get urlParams "base_grant_url" = None \/
  Client.get urlParams "base_grant_url" = Some "" ->
  snd (Client.extractAndLogParameters urlParams) =
    [Client.ShowErrorMessage "This page must be accessed via Meraki splash page redirect."] /\
  forall field_username field_password fetch href,
    ~ In (Client.Redirect href)
        (Client.submit (fst (Client.extractAndLogParameters urlParams))
           field_username field_password fetch).
Proof.
  intros H.
  assert (Hb : Client.or_empty (Client.get urlParams "base_grant_url") = "").
  { destruct H as [-> | ->]; reflexivity. }
  unfold Client.extractAndLogParameters. cbv zeta. cbn [fst snd]. rewrite Hb.
  split; [reflexivity|].
  intros u p fetch href. unfold Client.submit, Client.performAuthentication.
  cbn [Client.client_mac Client.client_ip Client.node_mac].
  match goal with |- context [fetch ?b] => destruct (fetch b) as [| |status data] end.
  - cbn. intros [H'|[H'|[H'|[H'|[H'|[]]]]]]; discriminate H'.
  - cbn. intros [H'|[H'|[H'|[]]]]; discriminate H'.
  - destruct (Client.ok status && Http.success data).
    + intros Hin. apply in_app_or in Hin as [Hin|Hin].
      * cbn in Hin. destruct Hin as [H'|[H'|[H'|[H'|Hin]]]]; try discriminate H'.
        destruct (Http.validation data) as [[vstatus vmessage]|]; cbn in Hin.
        -- destruct Hin as [H'|[]]; discriminate H'.
        -- destruct Hin.
      * revert Hin. apply no_redirect_without_base. reflexivity.
    + cbn. intros [H'|[H'|[H'|[H'|Hin]]]]; try discriminate H'.
      destruct (Http.validation data) as [[vstatus vmessage]|]; cbn in Hin.
      * destruct Hin as [H'|[H'|[]]]; discriminate H'.
      * destruct Hin as [H'|[]]; discriminate H'.
Qed.

(** *** The further properties at concrete exchanges *)

Local Abbreviation login :=
  (splash_login (Radius.encode Scenario.request_authenticator) Radius.decode
     Scenario.env Scenario.env Scenario.random).
Local Abbreviation test_page :=
  (fst (Client.extractAndLogParameters Client.test_splash_params)).
Local Abbreviation granted_events :=
  [(3, SendDone None);
   (40, Message (Scenario.reply 2 9 (Scenario.filter_id "StaffPolicy")))].
Local Abbreviation denied_events :=
  [(3, SendDone None);
   (40, Message (Scenario.reply 2 9 (Scenario.filter_id "GuestPolicy")))].
Local Abbreviation granted_answer :=
  {| Http.status := 200;
     Http.json :=
       {| Http.success := true;
          Http.message := "Authentication successful";
          Http.filterId := JStr "StaffPolicy";
          Http.validation := Some ("success", "Access granted - Account verified") |} |}.
Local Abbreviation denied_answer :=
  {| Http.status := 403;
     Http.json :=
       {| Http.success := false;
          Http.message := "You don't belong to this SSID";
          Http.filterId := JStr "GuestPolicy";
          Http.validation :=
            Some ("error", "Access denied - You don't belong to this SSID") |} |}.

Example test_page_globals :
  test_page =
  {| Client.base_grant_url := "https://n143.network-auth.com/splash/grant";
     Client.user_continue_url := "http://google.com";
     Client.node_mac := "00:11:22:33:44:55";
     Client.client_ip := "10.0.0.1";
     Client.client_mac := "AA:BB:CC:DD:EE:FF" |}.
Proof. reflexivity. Qed.

Example mac_without_colons : Client.fix_mac "AABBCCDDEEFF" = "AA:BB:CC:DD:EE:FF".
Proof. reflexivity. Qed.

Example granted_answered :
  response (run Scenario.env Scenario.alice Scenario.random granted_events) =
  Some granted_answer.
Proof. vm_compute. reflexivity. Qed.

Example denied_answered :
  response (run Scenario.env Scenario.alice Scenario.random denied_events) =
  Some denied_answer.
Proof. vm_compute. reflexivity. Qed.

(** X2 at a concrete exchange: the grant repeats the [Filter-Id]. *)
Lemma granted_only_on_accept_witness :
  Http.filterId (Http.json granted_answer) = JStr (ALLOWED_FILTER_ID Scenario.env) /\
  exists now m resp,
    In (now, Message m) granted_events /\ now < TIMEOUT_MS /\
    Radius.decode m (RADIUS_SECRET Scenario.env) = Ok resp /\
    Response.code resp = "Access-Accept" /\
    extract_filterId resp = JStr (ALLOWED_FILTER_ID Scenario.env).
Proof.
  exact (proj2 (granted_only_on_accept (Radius.encode Scenario.request_authenticator)
                  Radius.decode Scenario.env Scenario.env Scenario.alice Scenario.random
                  granted_events granted_answer granted_answered eq_refl)).
Defined.

(** X3 at concrete exchanges: a denial that took 250 ms is logged. *)
Lemma failures_always_logged_witness :
  request_logged (Http.status denied_answer) 250 = true.
Proof.
  rewrite (failures_always_logged (Radius.encode Scenario.request_authenticator)
             Radius.decode Scenario.env Scenario.env Scenario.alice Scenario.random
             denied_events 250 denied_answer denied_answered).
  reflexivity.
Defined.

(** X5 at the concrete draw 9/256. *)
Lemma identifier_fits_byte_witness :
  0 <= Packet.identifier
         (request_packet (JStr "alice") (JStr "correct") Scenario.random) <= 255.
Proof.
  apply identifier_fits_byte.
  - unfold Qle. vm_compute. discriminate.
  - reflexivity.
Defined.

(** X7 at a concrete exchange: the page of [/test-splash], a granted login. *)
Lemma redirect_only_when_granted_witness :
  Client.base_grant_url test_page <> "" /\
  exists r,
    response (run Scenario.env Scenario.alice Scenario.random granted_events) = Some r /\
    Http.status r = 200.
Proof.
  assert (Hin : In (Client.Redirect
                      "https://n143.network-auth.com/splash/grant?continue_url=http%3A%2F%2Fgoogle.com")
                   (login granted_events test_page "alice" "correct")).
  { vm_compute. repeat first [left; reflexivity | right]. }
  destruct (redirect_only_when_granted (Radius.encode Scenario.request_authenticator)
              Radius.decode Scenario.env Scenario.env Scenario.random granted_events
              test_page "alice" "correct" _ Hin)
    as (_ & Hb & r & Hr & Hs & _).
  split; [exact Hb|]. exists r. split; assumption.
Defined.

(** X8 at a concrete exchange: a denied login. *)
Lemma login_follows_answer_witness :
  login denied_events test_page "alice" "correct" =
  [Client.ShowLoading true; Client.HideMessages; Client.HideValidationStatus;
   Client.ShowErrorMessage "You don't belong to this SSID";
   Client.ShowValidationStatus "error" "Access denied - You don't belong to this SSID";
   Client.ShowLoading false].
Proof.
  rewrite (login_follows_answer (Radius.encode Scenario.request_authenticator)
             Radius.decode Scenario.env Scenario.env Scenario.random denied_events
             test_page "alice" "correct" denied_answer denied_answered).
  reflexivity.
Defined.

(** X9 at a concrete submission: the password field is empty. *)
Lemma empty_field_never_reaches_radius_witness :
  login granted_events test_page "alice" "" =
  [Client.ShowLoading true; Client.HideMessages; Client.HideValidationStatus;
   Client.ShowErrorMessage "Username and password are required";
   Client.ShowLoading false].
Proof.
  apply (empty_field_never_reaches_radius (Radius.encode Scenario.request_authenticator)
           Radius.decode Scenario.env Scenario.env Scenario.random granted_events
           test_page "alice" "").
  right. reflexivity.
Defined.

(** X15 at a concrete page: opened with no parameter at all. *)
Lemma page_without_grant_url_never_redirects_witness :
  snd (Client.extractAndLogParameters []) =
  [Client.ShowErrorMessage "This page must be accessed via Meraki splash page redirect."].
Proof.
  apply (page_without_grant_url_never_redirects []). left. reflexivity.
Defined.

(** X16 at a concrete configuration: [RADIUS_PORT] is ["0"]. *)
Lemma bad_port_fails_every_attempt_witness :
  Http.status <$>
    response (auth_radius (Radius.encode Scenario.request_authenticator) Radius.decode
                (<["RADIUS_PORT" := "0"]> Scenario.env) Scenario.env Scenario.alice
                Scenario.random granted_events) = Some 500.
Proof.
  apply (bad_port_fails_every_attempt (Radius.encode Scenario.request_authenticator)
           Radius.decode (<["RADIUS_PORT" := "0"]> Scenario.env) Scenario.env
           Scenario.alice Scenario.random granted_events).
  - intros p Hp. vm_compute in Hp. injection Hp as <-. left. reflexivity.
  - reflexivity.
Defined.

(** [parseInt] on the edges of its input: a leading no-break space is
    skipped, an integer above 2^53 is rounded to the nearest double, and one
    beyond the doubles is [Infinity]. *)
Example parseInt_no_break_space :
  parseInt (String (ascii_of_nat 160) " 1812") = Integer 1812 /\
  client_send
    (RADIUS_PORT (<["RADIUS_PORT" := String (ascii_of_nat 160) "1812"]> Scenario.env)) =
  Ok tt.
Proof. vm_compute. split; reflexivity. Qed.

Example parseInt_rounds_to_double :
  parseInt "9007199254740993" = Integer 9007199254740992 /\
  parseInt "-0x20000000000003" = Integer (-9007199254740996) /\
  parseInt "12px" = Integer 12 /\
  parseInt "port" = NaN.
Proof. vm_compute. repeat split; reflexivity. Qed.

Example parseInt_overflows :
  parseInt (String.append "1" (string_of_list_ascii (repeat "0"%char 400))) =
  Infinity false.
Proof. vm_compute. reflexivity. Qed.
